(** * The Dapr operator: bootstrap and control supervisor

    A shallow embedding of [pkg/operator/operator.go]: the constructor
    [NewOperator], the informer callback [syncComponent], the certificate
    bootstrap [loadCertChain] and the start-up sequence [Run].

    Effects are explicit.  Code that only talks to collaborators
    ([NewOperator], [syncComponent]) is written in a small writer monad
    that records every call and log line and can stop at a [log.Fatalf].
    [Run] launches goroutines, so it is a transition system: one executable
    [step] function over a process state, whose actions are the statements
    of each goroutine and the answers of the collaborators. *)

From Stdlib Require Import ZArith List String Bool Lia.
Import ListNotations.

Local Open Scope string_scope.
Local Open Scope list_scope.
Local Open Scope Z_scope.

(** ** Values shared by all parts *)

(** [context.Canceled] and [context.DeadlineExceeded]. *)
Inductive ctx_err := Canceled | DeadlineExceeded.

(** A Go [error] value that is not nil: a context error (possibly wrapped,
    [errors.Is] sees through the wrapping) or anything else. *)
Inductive error :=
| ErrCtx (c : ctx_err)
| ErrOther (msg : string).

(** [err.Error()], the text that [%s] and [%v] print for an error; a
    context error is taken with its own text. *)
Definition Error (e : error) : string :=
  match e with
  | ErrCtx Canceled => "context canceled"
  | ErrCtx DeadlineExceeded => "context deadline exceeded"
  | ErrOther msg => msg
  end.

(** [errors.Is(err, context.Canceled)]. *)
Definition is_canceled (e : error) : bool :=
  match e with
  | ErrCtx Canceled => true
  | _ => false
  end.

Definition ctx_err_eqb (a b : ctx_err) : bool :=
  match a, b with
  | Canceled, Canceled | DeadlineExceeded, DeadlineExceeded => true
  | _, _ => false
  end.

Module componentsapi.
(** [componentsapi.Component]: identified by namespace and name; the
    specification payload is opaque to the operator. *)
Record Component := {
  Namespace : string;
  Name : string;
  Spec : string
}.
End componentsapi.

(** A value of Go's [any] as the informer hands it to a callback: a
    [*componentsapi.Component] (which may be the nil pointer) or a value of
    another dynamic type, of which only the kind is kept. *)
Inductive any :=
| AnyComponent (p : option componentsapi.Component)
| AnyOther (kind : string).

Module credentials.
(** [credentials.CertChain]: the three blobs read from disk. *)
Record CertChain := {
  RootCA : string;
  Cert : string;
  Key : string
}.

(** [credentials.TLSCredentials], built from the base path. *)
Record TLSCredentials := { Path : string }.

Definition NewTLSCredentials (path : string) : TLSCredentials :=
  {| Path := path |}.
End credentials.

Module ctrl.
(** The fields of [ctrl.Options] that [NewOperator] sets. *)
Record Options := {
  MetricsBindAddress : string;
  LeaderElection : bool;
  LeaderElectionID : string;
  Namespace : string
}.
End ctrl.

Module Opts.
(** [operator.Options]. Durations are in nanoseconds. *)
Record t := {
  Config : string;
  CertChainPath : string;
  LeaderElection : bool;
  WatchdogEnabled : bool;
  WatchdogInterval : Z;
  WatchdogMaxRestartsPerMin : Z;
  WatchNamespace : string;
  ServiceReconcilerEnabled : bool;
  ArgoRolloutServiceReconcilerEnabled : bool
}.
End Opts.
Definition Options := Opts.t.

(** The [DaprWatchdog] value built at lines 110-114 (the client is the
    manager's single client and is left out). *)
Record DaprWatchdog := {
  interval : Z;
  maxRestartsPerMin : Z
}.

(** The disk as [credentials.LoadFromDisk] sees it through the three
    credential paths: the content of each file, or [None] when it cannot be
    read. *)
Record disk := {
  rootCertFile : option string;
  certFile : option string;
  keyFile : option string
}.

Inductive level := Debug | Info | Warn | FatalLevel.

(** Every call site of [log.Fatal]/[log.Fatalf] in the file. *)
Inductive fatal :=
| FatalGetConfig (e : error)        (* line 92 *)
| FatalNewManager (e : error)       (* line 102 *)
| FatalAddWatchdog (e : error)      (* line 117 *)
| FatalHandlerInit (e : error)      (* line 127 *)
| FatalGetInformer (e : error)      (* line 143 *)
| FatalLoadConfiguration (e : error) (* line 160 *)
| FatalWatch (e : error)            (* line 183 *)
| FatalCertTimeout                  (* line 187 *)
| FatalMgrStart (e : error)         (* line 215 *)
| FatalCacheSync                    (* line 219 *)
| FatalHealthz (e : error).         (* line 232 *)

(** How the process can stop: a fatal log line exits it, a nil dereference
    panics. *)
Inductive exit_cause :=
| ExitFatal (f : fatal)
| ExitPanic.

(** What the operator does to the outside world, in the order it does it. *)
Inductive event :=
| EvLog (l : level) (msg : string)
(* NewOperator *)
| EvGetConfig
| EvNewManager (o : ctrl.Options)
| EvMgrAdd (wd : DaprWatchdog)
| EvHandlerInit (argo : bool)
| EvNewAPIServer
| EvGetInformer
| EvAddEventHandler
(* syncComponent *)
| EvOnComponentUpdated (c : componentsapi.Component)
(* Run and loadCertChain *)
| EvGoMgrStart
| EvMgrStart
| EvWaitForCacheSync (ok : bool)
| EvLoadConfiguration (name : string) (ok : bool)
| EvGoWatch
| EvWatchCall (path : string)
| EvLoadFromDisk (d : disk) (r : option credentials.CertChain)
| EvRecvFsEvent (open : bool)
| EvCloseFsEvent
| EvWatchCancel
| EvNewHealthServer
| EvGoHealthz
| EvHealthzRun (port : Z)
| EvApiServerRun (chain : option credentials.CertChain)
| EvApiListening
| EvHealthzReady
| EvExit (c : exit_cause).

(** ** A writer monad with early exit

    [M A] is a computation that emits events and either returns a value or
    stops the process. *)
Inductive outcome (A : Type) :=
| Ret (a : A)
| Stop (c : exit_cause).
Arguments Ret {A} a.
Arguments Stop {A} c.

Definition M (A : Type) : Type := list event * outcome A.

Definition ret {A} (a : A) : M A := ([], Ret a).

Definition bind {A B} (m : M A) (k : A -> M B) : M B :=
  match m with
  | (evs, Ret a) => let (evs', r) := k a in (evs ++ evs', r)
  | (evs, Stop c) => (evs, Stop c)
  end.

Notation "x <- m ;; k" := (bind m (fun x => k))
  (at level 61, m at next level, right associativity).
Notation "m ;;; k" := (bind m (fun _ => k))
  (at level 61, right associativity).

Definition emit (e : event) : M unit := ([e], Ret tt).
Definition logf (l : level) (msg : string) : M unit := emit (EvLog l msg).

(** [log.Fatalf]: the line is written and the process exits. *)
Definition fatalf {A} (f : fatal) (msg : string) : M A :=
  ([EvLog FatalLevel msg; EvExit (ExitFatal f)], Stop (ExitFatal f)).

(** A nil pointer dereference. *)
Definition panic {A} : M A := ([EvExit ExitPanic], Stop ExitPanic).

Definition events {A} (m : M A) : list event := fst m.
Definition result {A} (m : M A) : outcome A := snd m.

(** ** syncComponent (lines 165-171) *)

Definition syncComponent (obj : any) : M unit :=
  match obj with
  | AnyComponent p =>
      (* the type assertion succeeds, also for a nil pointer *)
      match p with
      | Some c =>
          logf Debug ("Observed component to be synced, "
                        ++ componentsapi.Namespace c ++ "/" ++ componentsapi.Name c)%string ;;;
          emit (EvOnComponentUpdated c)
      | None => panic (* c.Namespace on a nil pointer *)
      end
  | AnyOther _ => ret tt
  end.

(** [cache.ResourceEventHandlerFuncs]: a nil function is [None]. *)
Record ResourceEventHandlerFuncs := {
  AddFunc : option (any -> M unit);
  UpdateFunc : option (any -> any -> M unit);
  DeleteFunc : option (any -> M unit)
}.

(** The handlers registered at lines 146-151. *)
Definition componentHandlers : ResourceEventHandlerFuncs :=
  {| AddFunc := Some syncComponent;
     UpdateFunc := Some (fun _ newObj => syncComponent newObj);
     DeleteFunc := None |}.

(** What the informer delivers, and how [ResourceEventHandlerFuncs]
    dispatches it ([OnAdd], [OnUpdate], [OnDelete] call the function when it
    is not nil). *)
Inductive notification :=
| OnAdd (obj : any)
| OnUpdate (oldObj newObj : any)
| OnDelete (obj : any).

Definition dispatch (h : ResourceEventHandlerFuncs) (n : notification) : M unit :=
  match n with
  | OnAdd obj => match AddFunc h with Some f => f obj | None => ret tt end
  | OnUpdate o n => match UpdateFunc h with Some f => f o n | None => ret tt end
  | OnDelete obj => match DeleteFunc h with Some f => f obj | None => ret tt end
  end.

(** ** NewOperator (lines 89-154) *)

(** The answers of the collaborators [NewOperator] calls: [None] is a nil
    error. *)
Record cluster := {
  GetConfig_err : option error;
  NewManager_err : ctrl.Options -> option error;
  Add_err : DaprWatchdog -> option error;
  Init_err : option error;
  GetInformer_err : option error
}.

(** The [operator] struct after construction ([config] is set by
    [prepareConfig] and lives in the process state). *)
Record operator := {
  configName : string;
  certChainPath : string
}.

(** What [NewOperator] leaves behind: the operator, the options the manager
    was created with, the runnables added to it and the handlers registered
    on the component informer. *)
Record built := {
  op : operator;
  mgrOptions : ctrl.Options;
  runnables : list DaprWatchdog;
  handlers : ResourceEventHandlerFuncs
}.

(** [if err != nil { log.Fatalf(msg + "%s", err) }]. *)
Definition check {A} (r : option error) (f : error -> fatal) (msg : string)
  (k : M A) : M A :=
  match r with
  | Some e => fatalf (f e) (msg ++ Error e)%string
  | None => k
  end.

Definition NewOperator (env : cluster) (opts : Options) : M built :=
  emit EvGetConfig ;;;
  check (GetConfig_err env) FatalGetConfig
        "Unable to get controller runtime configuration, err: " (
  let mo := {| ctrl.MetricsBindAddress := "0";
               ctrl.LeaderElection := Opts.LeaderElection opts;
               ctrl.LeaderElectionID := "operator.dapr.io";
               ctrl.Namespace := Opts.WatchNamespace opts |} in
  emit (EvNewManager mo) ;;;
  check (NewManager_err env mo) FatalNewManager "Unable to start manager, err: " (
  rs <- (if Opts.WatchdogEnabled opts then
           (if negb (Opts.LeaderElection opts) then
              logf Warn "Leadership election is forcibly enabled when the Dapr Watchdog is enabled"
            else ret tt) ;;;
           let wd := {| interval := Opts.WatchdogInterval opts;
                        maxRestartsPerMin := Opts.WatchdogMaxRestartsPerMin opts |} in
           emit (EvMgrAdd wd) ;;;
           check (Add_err env wd) FatalAddWatchdog
                 "Unable to add watchdog controller, err: " (ret [wd])
         else
           logf Info "Dapr Watchdog is not enabled" ;;; ret []) ;;
  (if Opts.ServiceReconcilerEnabled opts then
     emit (EvHandlerInit (Opts.ArgoRolloutServiceReconcilerEnabled opts)) ;;;
     check (Init_err env) FatalHandlerInit "Unable to initialize handler, err: "
           (ret tt)
   else ret tt) ;;;
  let o := {| configName := Opts.Config opts;
              certChainPath := Opts.CertChainPath opts |} in
  emit EvNewAPIServer ;;;
  emit EvGetInformer ;;;
  check (GetInformer_err env) FatalGetInformer
        "Unable to get setup components informer, err: " (
  emit EvAddEventHandler ;;;
  ret {| op := o; mgrOptions := mo; runnables := rs;
         handlers := componentHandlers |}))).

(** A cluster in which every call of [NewOperator] succeeds. *)
Definition healthy_cluster : cluster :=
  {| GetConfig_err := None;
     NewManager_err := fun _ => None;
     Add_err := fun _ => None;
     Init_err := None;
     GetInformer_err := None |}.

Definition sample_options (leader watchdog : bool) : Options :=
  {| Opts.Config := "daprsystem";
     Opts.CertChainPath := "/var/run/dapr/credentials";
     Opts.LeaderElection := leader;
     Opts.WatchdogEnabled := watchdog;
     Opts.WatchdogInterval := 10 * 1000000000;
     Opts.WatchdogMaxRestartsPerMin := 2;
     Opts.WatchNamespace := "";
     Opts.ServiceReconcilerEnabled := false;
     Opts.ArgoRolloutServiceReconcilerEnabled := false |}.

(** ** The process: Run (lines 208-243) and loadCertChain (lines 173-206)

    Durations and instants are in nanoseconds, as Go's [time.Duration]. *)

Definition Second : Z := 1000000000.
Definition Minute : Z := 60 * Second.
Definition healthzPort : Z := 8080.

(** A [context.Context] as the operator observes it: [Deadline()], [Err()],
    and whether the deadline is enforced by a timer of its own or by the
    parent's. *)
Record context := {
  deadline : option Z;
  ownTimer : bool;
  err : option ctx_err
}.

(** [context.WithTimeout(parent, d)] called at instant [t]: when the parent
    expires earlier the child keeps the parent's deadline and has no timer of
    its own; a child of a finished parent is finished with the same error. *)
Definition WithTimeout (parent : context) (t d : Z) : context :=
  match deadline parent with
  | Some pd =>
      if pd <? t + d
      then {| deadline := Some pd; ownTimer := false; err := err parent |}
      else {| deadline := Some (t + d); ownTimer := true; err := err parent |}
  | None => {| deadline := Some (t + d); ownTimer := true; err := err parent |}
  end.

(** Cancelling a context sets its error once; later causes are ignored. *)
Definition cancel (e : ctx_err) (c : context) : context :=
  match err c with
  | Some _ => c
  | None => {| deadline := deadline c; ownTimer := ownTimer c; err := Some e |}
  end.

Definition done (c : context) : bool :=
  match err c with Some _ => true | None => false end.

Definition expired (c : context) : bool :=
  match err c with Some DeadlineExceeded => true | _ => false end.

(** Modelled from the spec: [credentials.LoadFromDisk] is not among the
    sources at hand.  Section 4.1: "attempt to read all three files; on
    success, return the chain"; a missing or unreadable file is a failure. *)
Definition LoadFromDisk (d : disk) : credentials.CertChain + error :=
  match rootCertFile d with
  | None => inr (ErrOther "root cert: no such file")
  | Some r =>
      match certFile d with
      | None => inr (ErrOther "cert: no such file")
      | Some c =>
          match keyFile d with
          | None => inr (ErrOther "key: no such file")
          | Some k =>
              inl {| credentials.RootCA := r; credentials.Cert := c;
                     credentials.Key := k |}
          end
      end
  end.

(** [o.config] once [prepareConfig] has run; only the credentials matter
    here. *)
Record Config := { Credentials : credentials.TLSCredentials }.

(** Where the goroutine of [Run] stands. *)
Inductive main_pc :=
| PStart                 (* line 211 *)
| PWaitForCacheSync      (* line 218, blocked *)
| PPrepareConfig         (* line 221, inside LoadConfiguration *)
| PLoadCertChain         (* line 224 -> 174 *)
| PLoadFromDisk          (* line 192 *)
| PRecvFsEvent           (* line 199, blocked *)
| PWatchCancel (certChain : option credentials.CertChain)   (* line 203 *)
| PHealthz (certChain : option credentials.CertChain)       (* line 227 *)
| PApiServerRun (certChain : option credentials.CertChain)  (* line 237 *)
| PInApiServerRun        (* blocked inside apiServer.Run *)
| PShuttingDown          (* line 242 *)
| PReturned.

(** The goroutine of lines 213-217. *)
Inductive mgr_pc := MNotSpawned | MSpawned | MRunning | MReturned.

(** The goroutine of lines 178-189; [WReturned r] holds what
    [fswatcher.Watch] returned. *)
Inductive watcher_pc :=
| WNotSpawned
| WSpawned
| WInWatch
| WReturned (r : option error)
| WClosed
| WDone.

(** The goroutine of lines 228-234. *)
Inductive healthz_pc := HNotSpawned | HSpawned | HRunning | HReturned.

(** The API server seen from [Run]. *)
Inductive api_pc := ApiNotCalled | ApiCalled | ApiListening | ApiServing | ApiReturned.

(** The whole process. [ready] is the health server's readiness flag, [None]
    before [health.NewServer]; [trace] is oldest first. *)
Record state := {
  now : Z;
  rootCtx : context;
  watchCtx : option context;
  files : disk;
  cacheSynced : bool;
  config : option Config;
  main : main_pc;
  mgrT : mgr_pc;
  watcher : watcher_pc;
  healthzT : healthz_pc;
  ready : option bool;
  api : api_pc;
  exited : option exit_cause;
  trace : list event
}.

Definition set_now (v : Z) (s : state) : state :=
  {| now := v;
     rootCtx := rootCtx s;
     watchCtx := watchCtx s;
     files := files s;
     cacheSynced := cacheSynced s;
     config := config s;
     main := main s;
     mgrT := mgrT s;
     watcher := watcher s;
     healthzT := healthzT s;
     ready := ready s;
     api := api s;
     exited := exited s;
     trace := trace s |}.
Definition set_rootCtx (v : context) (s : state) : state :=
  {| now := now s;
     rootCtx := v;
     watchCtx := watchCtx s;
     files := files s;
     cacheSynced := cacheSynced s;
     config := config s;
     main := main s;
     mgrT := mgrT s;
     watcher := watcher s;
     healthzT := healthzT s;
     ready := ready s;
     api := api s;
     exited := exited s;
     trace := trace s |}.
Definition set_watchCtx (v : option context) (s : state) : state :=
  {| now := now s;
     rootCtx := rootCtx s;
     watchCtx := v;
     files := files s;
     cacheSynced := cacheSynced s;
     config := config s;
     main := main s;
     mgrT := mgrT s;
     watcher := watcher s;
     healthzT := healthzT s;
     ready := ready s;
     api := api s;
     exited := exited s;
     trace := trace s |}.
Definition set_files (v : disk) (s : state) : state :=
  {| now := now s;
     rootCtx := rootCtx s;
     watchCtx := watchCtx s;
     files := v;
     cacheSynced := cacheSynced s;
     config := config s;
     main := main s;
     mgrT := mgrT s;
     watcher := watcher s;
     healthzT := healthzT s;
     ready := ready s;
     api := api s;
     exited := exited s;
     trace := trace s |}.
Definition set_cacheSynced (v : bool) (s : state) : state :=
  {| now := now s;
     rootCtx := rootCtx s;
     watchCtx := watchCtx s;
     files := files s;
     cacheSynced := v;
     config := config s;
     main := main s;
     mgrT := mgrT s;
     watcher := watcher s;
     healthzT := healthzT s;
     ready := ready s;
     api := api s;
     exited := exited s;
     trace := trace s |}.
Definition set_config (v : option Config) (s : state) : state :=
  {| now := now s;
     rootCtx := rootCtx s;
     watchCtx := watchCtx s;
     files := files s;
     cacheSynced := cacheSynced s;
     config := v;
     main := main s;
     mgrT := mgrT s;
     watcher := watcher s;
     healthzT := healthzT s;
     ready := ready s;
     api := api s;
     exited := exited s;
     trace := trace s |}.
Definition set_main (v : main_pc) (s : state) : state :=
  {| now := now s;
     rootCtx := rootCtx s;
     watchCtx := watchCtx s;
     files := files s;
     cacheSynced := cacheSynced s;
     config := config s;
     main := v;
     mgrT := mgrT s;
     watcher := watcher s;
     healthzT := healthzT s;
     ready := ready s;
     api := api s;
     exited := exited s;
     trace := trace s |}.
Definition set_mgrT (v : mgr_pc) (s : state) : state :=
  {| now := now s;
     rootCtx := rootCtx s;
     watchCtx := watchCtx s;
     files := files s;
     cacheSynced := cacheSynced s;
     config := config s;
     main := main s;
     mgrT := v;
     watcher := watcher s;
     healthzT := healthzT s;
     ready := ready s;
     api := api s;
     exited := exited s;
     trace := trace s |}.
Definition set_watcher (v : watcher_pc) (s : state) : state :=
  {| now := now s;
     rootCtx := rootCtx s;
     watchCtx := watchCtx s;
     files := files s;
     cacheSynced := cacheSynced s;
     config := config s;
     main := main s;
     mgrT := mgrT s;
     watcher := v;
     healthzT := healthzT s;
     ready := ready s;
     api := api s;
     exited := exited s;
     trace := trace s |}.
Definition set_healthzT (v : healthz_pc) (s : state) : state :=
  {| now := now s;
     rootCtx := rootCtx s;
     watchCtx := watchCtx s;
     files := files s;
     cacheSynced := cacheSynced s;
     config := config s;
     main := main s;
     mgrT := mgrT s;
     watcher := watcher s;
     healthzT := v;
     ready := ready s;
     api := api s;
     exited := exited s;
     trace := trace s |}.
Definition set_ready (v : option bool) (s : state) : state :=
  {| now := now s;
     rootCtx := rootCtx s;
     watchCtx := watchCtx s;
     files := files s;
     cacheSynced := cacheSynced s;
     config := config s;
     main := main s;
     mgrT := mgrT s;
     watcher := watcher s;
     healthzT := healthzT s;
     ready := v;
     api := api s;
     exited := exited s;
     trace := trace s |}.
Definition set_api (v : api_pc) (s : state) : state :=
  {| now := now s;
     rootCtx := rootCtx s;
     watchCtx := watchCtx s;
     files := files s;
     cacheSynced := cacheSynced s;
     config := config s;
     main := main s;
     mgrT := mgrT s;
     watcher := watcher s;
     healthzT := healthzT s;
     ready := ready s;
     api := v;
     exited := exited s;
     trace := trace s |}.
Definition set_exited (v : option exit_cause) (s : state) : state :=
  {| now := now s;
     rootCtx := rootCtx s;
     watchCtx := watchCtx s;
     files := files s;
     cacheSynced := cacheSynced s;
     config := config s;
     main := main s;
     mgrT := mgrT s;
     watcher := watcher s;
     healthzT := healthzT s;
     ready := ready s;
     api := api s;
     exited := v;
     trace := trace s |}.
Definition set_trace (v : list event) (s : state) : state :=
  {| now := now s;
     rootCtx := rootCtx s;
     watchCtx := watchCtx s;
     files := files s;
     cacheSynced := cacheSynced s;
     config := config s;
     main := main s;
     mgrT := mgrT s;
     watcher := watcher s;
     healthzT := healthzT s;
     ready := ready s;
     api := api s;
     exited := exited s;
     trace := v |}.

Definition say (evs : list event) (s : state) : state :=
  set_trace (trace s ++ evs) s.

(** [log.Fatalf] in the process: the line is written and the process
    exits. *)
Definition die (f : fatal) (msg : string) (s : state) : state :=
  set_exited (Some (ExitFatal f))
    (say [EvLog FatalLevel msg; EvExit (ExitFatal f)] s).

Definition crash (s : state) : state :=
  set_exited (Some ExitPanic) (say [EvExit ExitPanic] s).

(** Running a callback inside the process. *)
Definition run_handler (m : M unit) (s : state) : state :=
  match m with
  | (evs, Ret _) => say evs s
  | (evs, Stop c) => set_exited (Some c) (say evs s)
  end.

Definition alive (s : state) : bool :=
  match exited s with None => true | Some _ => false end.

(** [close(fsevent)] has run once the watcher goroutine is past line 185. *)
Definition fsevent_closed (s : state) : bool :=
  match watcher s with
  | WClosed | WDone => true
  | _ => false
  end.

(** Cancelling the root context cancels the watch context derived from
    it. *)
Definition cancel_root (e : ctx_err) (s : state) : state :=
  set_watchCtx (option_map (cancel e) (watchCtx s))
    (set_rootCtx (cancel e (rootCtx s)) s).

(** Line 182: [err != nil && !errors.Is(err, context.Canceled)]. *)
Definition watch_failed (r : option error) : bool :=
  match r with
  | Some e => negb (is_canceled e)
  | None => false
  end.

(** What [fswatcher.Watch] may return, and when (line 181: "Watch always
    returns an error, which is context.Canceled if everything went well"):
    a context error only once the watch context is done, either the
    context's own error or [Canceled]; any other error at any time. *)
Definition watch_may_return (c : context) (r : option error) : bool :=
  match r with
  | None => false
  | Some (ErrOther _) => true
  | Some (ErrCtx e) =>
      match err c with
      | Some e' => ctx_err_eqb e e' || ctx_err_eqb e Canceled
      | None => false
      end
  end.

(** What the API server does inside [Run]: bind its listeners, call the
    readiness callback, return. *)
Inductive api_action := ApiListen | ApiReady | ApiRunReturns.

(** Modelled from the spec: [api.Server] is not among the sources at hand.
    Sections 4.5 (step 7) and 6: [Run] is blocking; the readiness callback
    "must only fire after the API server has bound its listeners"; [Run]
    returns only on shutdown or fatal error.  The result says where the
    server stands next and whether it calls [onReady] in this step. *)
Definition apiServerRun (a : api_action) (p : api_pc) : option (api_pc * bool) :=
  match a, p with
  | ApiListen, ApiCalled => Some (ApiListening, false)
  | ApiReady, ApiListening => Some (ApiServing, true)
  | ApiRunReturns, (ApiCalled | ApiListening | ApiServing) => Some (ApiReturned, false)
  | _, _ => None
  end.

(** Modelled from the spec: [health.Server] is not among the sources at
    hand.  Section 6: "Ready() (idempotent, callable once conditions are
    met)"; section 7: "the health endpoint's readiness reflects false until
    every hard-gated step completes".  [NewServer] is the readiness of a new
    server, [Ready] the readiness after a call of [Ready()]. *)
Definition NewServer : bool := false.
Definition Ready (r : bool) : bool := true.

(** The readiness callback of lines 237-240, on the health server created at
    line 227. *)
Definition onReady (s : state) : state :=
  say [EvLog Info "Dapr Operator started"]
    (set_ready (option_map Ready (ready s)) (say [EvHealthzReady] s)).

(** One atomic step of the process.  The first group is the world around the
    operator: the clock, the contexts, the disk, and the collaborators, which
    are free to answer in any way their interface allows.  The cache can sync
    and the informer can call a handler once the manager runs;
    [WaitForCacheSync] returns true only when the cache has synced and false
    only when its context is done.  The second group is the goroutines of the
    operator, one statement at a time. *)
Inductive action :=
| Tick (d : Z)                      (* time passes *)
| RootCancel                        (* the caller cancels ctx *)
| RootExpire                        (* ctx reaches its own deadline *)
| WatchExpire                       (* the timer of watchCtx fires *)
| DiskSet (d : disk)                (* the credential files change *)
| CacheSync                         (* the cache finishes its initial list *)
| Deliver (n : notification)        (* the informer calls a handler *)
| MgrStartReturns (r : option error)
| HealthzRunReturns (r : option error)
| WatchReturns (r : option error)   (* fswatcher.Watch returns *)
| FsEvent                           (* Watch sends on fsevent, line 199 receives *)
| Api (a : api_action)
| WaitForCacheSyncReturns (ok : bool)
| LoadConfigurationReturns (r : option error)
| Main                              (* Run's goroutine runs its next statement *)
| MgrGo                             (* goroutine of line 213 *)
| WatcherGo                         (* goroutine of line 178 *)
| HealthzGo.                        (* goroutine of line 228 *)

Definition step_main (b : built) (s : state) : option state :=
  match main s with
  | PStart =>
      Some (set_main PWaitForCacheSync (set_mgrT MSpawned
             (say [EvLog Info "Dapr Operator is starting"; EvGoMgrStart] s)))
  | PLoadCertChain =>
      Some (set_main PLoadFromDisk (set_watcher WSpawned
             (set_watchCtx (Some (WithTimeout (rootCtx s) (now s) Minute))
               (say [EvLog Info "Getting TLS certificates"; EvGoWatch] s))))
  | PLoadFromDisk =>
      match LoadFromDisk (files s) with
      | inl chain =>
          Some (set_main (PWatchCancel (Some chain))
                 (say [EvLoadFromDisk (files s) (Some chain);
                       EvLog Info "TLS certificates loaded successfully"] s))
      | inr e =>
          Some (set_main PRecvFsEvent
                 (say [EvLoadFromDisk (files s) None;
                       EvLog Info ("TLS certificate not found; waiting for disk changes. err="
                                     ++ Error e)%string] s))
      end
  | PRecvFsEvent =>
      (* a receive on a closed channel returns at once *)
      if fsevent_closed s then
        Some (set_main PLoadFromDisk
               (say [EvRecvFsEvent false;
                     EvLog Debug "Watcher found activity on filesystem"] s))
      else None
  | PWatchCancel c =>
      Some (set_main (PHealthz c)
             (set_watchCtx (option_map (cancel Canceled) (watchCtx s))
               (say [EvWatchCancel] s)))
  | PHealthz c =>
      Some (set_main (PApiServerRun c) (set_healthzT HSpawned
             (set_ready (Some NewServer) (say [EvNewHealthServer; EvGoHealthz] s))))
  | PApiServerRun c =>
      Some (set_main PInApiServerRun (set_api ApiCalled
             (say [EvApiServerRun c] s)))
  | PShuttingDown =>
      Some (set_main PReturned
             (say [EvLog Info "Dapr Operator is shutting down"] s))
  | PWaitForCacheSync | PPrepareConfig | PInApiServerRun | PReturned => None
  end.

Definition step_watcher (s : state) : option state :=
  match watcher s with
  | WSpawned =>
      match config s with
      | Some cfg =>
          let path := credentials.Path (Credentials cfg) in
          Some (set_watcher WInWatch
                 (say [EvLog Info ("Starting watch for certs on filesystem: " ++ path)%string;
                       EvWatchCall path] s))
      | None => Some (crash s)
      end
  | WReturned r =>
      if watch_failed r then
        let e := match r with Some e => e | None => ErrOther "" end in
        Some (die (FatalWatch e)
                  ("Error starting watch on filesystem: " ++ Error e)%string s)
      else Some (set_watcher WClosed (say [EvCloseFsEvent] s))
  | WClosed =>
      match watchCtx s with
      | Some c =>
          if expired c then
            Some (die FatalCertTimeout
                      "Timeout while waiting to load TLS certificates" s)
          else Some (set_watcher WDone s)
      | None => None
      end
  | WNotSpawned | WInWatch | WDone => None
  end.

Definition step (b : built) (a : action) (s : state) : option state :=
  if negb (alive s) then None else
  match a with
  | Tick d => if 0 <=? d then Some (set_now (now s + d) s) else None
  | RootCancel => Some (cancel_root Canceled s)
  | RootExpire =>
      match deadline (rootCtx s) with
      | Some d =>
          if (d <=? now s) && negb (done (rootCtx s))
          then Some (cancel_root DeadlineExceeded s) else None
      | None => None
      end
  | WatchExpire =>
      match watchCtx s with
      | Some c =>
          match deadline c with
          | Some d =>
              if ownTimer c && (d <=? now s) && negb (done c)
              then Some (set_watchCtx (Some (cancel DeadlineExceeded c)) s)
              else None
          | None => None
          end
      | None => None
      end
  | DiskSet d => Some (set_files d s)
  | CacheSync =>
      match mgrT s with
      | MRunning => Some (set_cacheSynced true s)
      | _ => None
      end
  | Deliver n =>
      match mgrT s with
      | MRunning => Some (run_handler (dispatch (handlers b) n) s)
      | _ => None
      end
  | MgrStartReturns r =>
      match mgrT s with
      | MRunning =>
          match r with
          | Some e =>
              Some (die (FatalMgrStart e)
                        ("Failed to start controller manager, err: " ++ Error e)%string s)
          | None => Some (set_mgrT MReturned s)
          end
      | _ => None
      end
  | HealthzRunReturns r =>
      match healthzT s with
      | HRunning =>
          match r with
          | Some e =>
              Some (die (FatalHealthz e)
                        ("Failed to start healthz server: " ++ Error e)%string s)
          | None => Some (set_healthzT HReturned s)
          end
      | _ => None
      end
  | WatchReturns r =>
      match watcher s, watchCtx s with
      | WInWatch, Some c =>
          if watch_may_return c r then Some (set_watcher (WReturned r) s) else None
      | _, _ => None
      end
  | FsEvent =>
      match watcher s, main s with
      | WInWatch, PRecvFsEvent =>
          Some (set_main PLoadFromDisk
                 (say [EvRecvFsEvent true;
                       EvLog Debug "Watcher found activity on filesystem"] s))
      | _, _ => None
      end
  | Api a =>
      match apiServerRun a (api s) with
      | Some (p, callsReady) =>
          let s1 := match a with
                    | ApiListen => say [EvApiListening] s
                    | _ => s
                    end in
          let s2 := set_api p (if callsReady then onReady s1 else s1) in
          match p with
          | ApiReturned =>
              (* the call of line 237 returns to Run *)
              match main s with
              | PInApiServerRun => Some (set_main PShuttingDown s2)
              | _ => None
              end
          | _ => Some s2
          end
      | None => None
      end
  | WaitForCacheSyncReturns ok =>
      match main s with
      | PWaitForCacheSync =>
          if ok then
            if cacheSynced s
            then Some (set_main PPrepareConfig (say [EvWaitForCacheSync true] s))
            else None
          else
            if done (rootCtx s)
            then Some (die FatalCacheSync "Failed to wait for cache sync"
                           (say [EvWaitForCacheSync false] s))
            else None
      | _ => None
      end
  | LoadConfigurationReturns r =>
      match main s with
      | PPrepareConfig =>
          match r with
          | Some e =>
              Some (die (FatalLoadConfiguration e)
                        ("Unable to load configuration, config: " ++ configName (op b)
                           ++ ", err: " ++ Error e)%string
                        (say [EvLoadConfiguration (configName (op b)) false] s))
          | None =>
              Some (set_main PLoadCertChain
                     (set_config
                        (Some {| Credentials :=
                                   credentials.NewTLSCredentials (certChainPath (op b)) |})
                        (say [EvLoadConfiguration (configName (op b)) true] s)))
          end
      | _ => None
      end
  | Main => step_main b s
  | MgrGo =>
      match mgrT s with
      | MSpawned => Some (set_mgrT MRunning (say [EvMgrStart] s))
      | _ => None
      end
  | WatcherGo => step_watcher s
  | HealthzGo =>
      match healthzT s with
      | HSpawned => Some (set_healthzT HRunning (say [EvHealthzRun healthzPort] s))
      | _ => None
      end
  end.

(** Running a schedule; [None] when an action is not enabled. *)
Fixpoint exec (b : built) (acts : list action) (s : state) : option state :=
  match acts with
  | [] => Some s
  | a :: rest =>
      match step b a s with
      | Some s' => exec b rest s'
      | None => None
      end
  end.

(** The process when [Run] is entered at instant [t0] with context [ctx] and
    the credential files in state [d]. *)
Definition init (t0 : Z) (ctx : context) (d : disk) : state :=
  {| now := t0; rootCtx := ctx; watchCtx := None; files := d;
     cacheSynced := false; config := None; main := PStart;
     mgrT := MNotSpawned; watcher := WNotSpawned; healthzT := HNotSpawned;
     ready := None; api := ApiNotCalled; exited := None; trace := [] |}.

Definition reachable (b : built) (t0 : Z) (ctx : context) (d : disk) (s : state) : Prop :=
  exists acts, exec b acts (init t0 ctx d) = Some s.

(** [context.Background()] and a disk without credential files. *)
Definition background : context :=
  {| deadline := None; ownTimer := false; err := None |}.
Definition no_files : disk :=
  {| rootCertFile := None; certFile := None; keyFile := None |}.
Definition all_files : disk :=
  {| rootCertFile := Some "ca"; certFile := Some "cert"; keyFile := Some "key" |}.

Definition sample_built : built :=
  {| op := {| configName := "daprsystem";
              certChainPath := "/var/run/dapr/credentials" |};
     mgrOptions := {| ctrl.MetricsBindAddress := "0"; ctrl.LeaderElection := true;
                      ctrl.LeaderElectionID := "operator.dapr.io";
                      ctrl.Namespace := "" |};
     runnables := [];
     handlers := componentHandlers |}.

(** ** The restart watchdog *)

Module Watchdog.

(** Modelled from the spec: the tick loop of [DaprWatchdog] is not among
    the sources at hand, only its construction is (lines 110-114).
    Section 3: a Watchdog Target is "recomputed fresh on every watchdog
    tick"; the Restart Budget is "a process-wide counter {count,
    windowStart} reset every [...] one-minute window; shared across all
    watchdog ticks; must be mutated under a single mutator at a time". *)
Record Target := {
  namespace : string;
  name : string;
  ownerKind : string;
  hasExpectedSidecar : bool;
  sidecarInjectionEligible : bool
}.

Record Budget := {
  count : Z;
  windowStart : Z
}.

(** A restart action ("delete pod"), with the instant it was issued at and
    the budget window it was charged to. *)
Record Restart := {
  target : Target;
  issuedAt : Z;
  window : Z
}.

(** Modelled from the spec: section 4.4, targets "with the
    sidecar-injection label/annotation but a missing sidecar
    container". *)
Definition eligible (x : Target) : bool :=
  sidecarInjectionEligible x && negb (hasExpectedSidecar x).

(** Modelled from the spec: the counter is reset when a one-minute window
    has passed since [windowStart]; the next window opens at that
    instant. *)
Definition roll (t : Z) (b : Budget) : Budget :=
  if windowStart b + Minute <=? t
  then {| count := 0; windowStart := t |}
  else b.

(** Modelled from the spec: section 4.4, "attempt to spend one unit from
    the Restart Budget"; section 5, "its increment-and-check must be
    atomic/serialized".  One call is one serialized increment-and-check at
    instant [t]. *)
Definition spend (max t : Z) (b : Budget) : bool * Budget :=
  let b' := roll t b in
  if count b' <? max
  then (true, {| count := count b' + 1; windowStart := windowStart b' |})
  else (false, b').

(** Modelled from the spec: section 4.4, "for each such target, attempt to
    spend one unit from the Restart Budget; if the budget is exhausted for
    the current window, skip remaining targets until the next window opens
    -- do not queue skipped targets". *)
Fixpoint evaluate (max t : Z) (targets : list Target) (b : Budget)
  : list Restart * Budget :=
  match targets with
  | [] => ([], b)
  | x :: rest =>
      if eligible x then
        match spend max t b with
        | (true, b') =>
            let (rs, b'') := evaluate max t rest b' in
            ({| target := x; issuedAt := t; window := windowStart b' |} :: rs, b'')
        | (false, b') => ([], b')
        end
      else evaluate max t rest b
  end.

(** One tick: the instant it runs at, whether this instance is the leader
    and the pods it lists. *)
Record Tick := {
  instant : Z;
  leader : bool;
  found : list Target
}.

(** Modelled from the spec: section 4.4, "only the elected leader instance
    runs ticks; non-leaders [...] perform no enumeration". *)
Definition tick (wd : DaprWatchdog) (k : Tick) (b : Budget)
  : list Restart * Budget :=
  if leader k
  then evaluate (maxRestartsPerMin wd) (instant k) (found k) b
  else ([], b).

(** Modelled from the spec: the ticks of one execution, in the order in
    which the budget serializes them. *)
Fixpoint run (wd : DaprWatchdog) (ticks : list Tick) (b : Budget)
  : list Restart * Budget :=
  match ticks with
  | [] => ([], b)
  | k :: rest =>
      let (rs, b') := tick wd k b in
      let (rs', b'') := run wd rest b' in
      (rs ++ rs', b'')
  end.

(** The budget of a process started at [t0]. *)
Definition fresh (t0 : Z) : Budget := {| count := 0; windowStart := t0 |}.

(** The number of restarts charged to the budget window opened at [w]. *)
Definition charged (w : Z) (rs : list Restart) : Z :=
  Z.of_nat (List.length (filter (fun r => window r =? w) rs)).




Definition missing (n : string) : Target :=
  {| namespace := "default"; name := n; ownerKind := "ReplicaSet";
     hasExpectedSidecar := false; sidecarInjectionEligible := true |}.

Definition five : list Target :=
  [missing "a"; missing "b"; missing "c"; missing "d"; missing "e"].


Definition sample_watchdog : DaprWatchdog :=
  {| interval := 10 * Second; maxRestartsPerMin := 2 |}.








End Watchdog.

(** ** Observations on computations and traces *)

(** The components handed to [OnComponentUpdated], in order. *)
Fixpoint calls (evs : list event) : list componentsapi.Component :=
  match evs with
  | [] => []
  | EvOnComponentUpdated c :: rest => c :: calls rest
  | _ :: rest => calls rest
  end.

(** The log lines written, in order. *)
Fixpoint logs (evs : list event) : list (level * string) :=
  match evs with
  | [] => []
  | EvLog l msg :: rest => (l, msg) :: logs rest
  | _ :: rest => logs rest
  end.

Definition a_component : componentsapi.Component :=
  {| componentsapi.Namespace := "default"; componentsapi.Name := "statestore";
     componentsapi.Spec := "state.redis" |}.

Definition another_component : componentsapi.Component :=
  {| componentsapi.Namespace := "default"; componentsapi.Name := "pubsub";
     componentsapi.Spec := "pubsub.redis" |}.

Definition forced_warning : string :=
  "Leadership election is forcibly enabled when the Dapr Watchdog is enabled".

(** ** Order of events in a trace *)

(** Every event satisfying [Q] has an event satisfying [P] strictly before
    it. *)
Definition precedes (P Q : event -> Prop) (tr : list event) : Prop :=
  forall pre e post, tr = pre ++ e :: post -> Q e -> exists e', In e' pre /\ P e'.

Definition seen (p : event -> bool) (tr : list event) : bool := existsb p tr.

(** The same as [precedes], computed from the left; [before] tells whether
    a [p] event came before the part under review. *)
Fixpoint ordered (p q : event -> bool) (before : bool) (tr : list event) : bool :=
  match tr with
  | [] => true
  | e :: rest => implb (q e) before && ordered p q (before || p e) rest
  end.

Definition is_go_mgr e := match e with EvGoMgrStart => true | _ => false end.
Definition is_mgr_start e := match e with EvMgrStart => true | _ => false end.
Definition is_sync e := match e with EvWaitForCacheSync _ => true | _ => false end.
Definition is_sync_ok e := match e with EvWaitForCacheSync true => true | _ => false end.
Definition is_sync_failed e := match e with EvWaitForCacheSync false => true | _ => false end.
Definition is_config e := match e with EvLoadConfiguration _ _ => true | _ => false end.
Definition is_config_ok e := match e with EvLoadConfiguration _ true => true | _ => false end.
Definition is_go_watch e := match e with EvGoWatch => true | _ => false end.
Definition is_watch_call e := match e with EvWatchCall _ => true | _ => false end.
Definition is_load e := match e with EvLoadFromDisk _ _ => true | _ => false end.
Definition is_load_ok e := match e with EvLoadFromDisk _ (Some _) => true | _ => false end.
Definition is_recv e := match e with EvRecvFsEvent _ => true | _ => false end.
Definition is_watch_cancel e := match e with EvWatchCancel => true | _ => false end.
Definition is_new_healthz e := match e with EvNewHealthServer => true | _ => false end.
Definition is_go_healthz e := match e with EvGoHealthz => true | _ => false end.
Definition is_healthz_run e := match e with EvHealthzRun _ => true | _ => false end.
Definition is_api_run e := match e with EvApiServerRun _ => true | _ => false end.
Definition is_listening e := match e with EvApiListening => true | _ => false end.
Definition is_ready e := match e with EvHealthzReady => true | _ => false end.
Definition is_updated e := match e with EvOnComponentUpdated _ => true | _ => false end.

(** How far [Run] has come: the number of start-up steps behind it. *)
Definition stage (pc : main_pc) : nat :=
  match pc with
  | PStart => 0
  | PWaitForCacheSync => 1
  | PPrepareConfig => 2
  | PLoadCertChain => 3
  | PLoadFromDisk | PRecvFsEvent => 4
  | PWatchCancel _ => 5
  | PHealthz _ => 6
  | PApiServerRun _ => 7
  | PInApiServerRun | PShuttingDown | PReturned => 8
  end%nat.

(** The event that marks the end of each start-up step. *)
Definition milestone (k : nat) : event -> bool :=
  match k with
  | 1 => is_go_mgr
  | 2 => is_sync_ok
  | 3 => is_config_ok
  | 4 => is_go_watch
  | 5 => is_load_ok
  | 6 => is_watch_cancel
  | 7 => is_go_healthz
  | _ => is_api_run
  end%nat.

Fixpoint passed (n : nat) (tr : list event) : bool :=
  match n with
  | O => true
  | S k => seen (milestone (S k)) tr && passed k tr
  end.

(** The chain [c] is one that a read of all three files returned, and the
    read is recorded in [tr]. *)
Definition loaded_in (tr : list event) (c : option credentials.CertChain) : Prop :=
  exists chain d,
    c = Some chain
    /\ In (EvLoadFromDisk d (Some chain)) tr
    /\ LoadFromDisk d = inl chain
    /\ rootCertFile d = Some (credentials.RootCA chain)
    /\ certFile d = Some (credentials.Cert chain)
    /\ keyFile d = Some (credentials.Key chain).

Definition held_chain (pc : main_pc) : option (option credentials.CertChain) :=
  match pc with
  | PWatchCancel c | PHealthz c | PApiServerRun c => Some c
  | _ => None
  end.

(** What holds in every state of the process about the order of the
    start-up steps. *)
Record startup_inv (s : state) : Prop := {
  inv_passed : passed (stage (main s)) (trace s) = true;
  inv_config : seen is_config (trace s) = true -> (2 <= stage (main s))%nat;
  inv_load : seen is_load (trace s) = true -> (4 <= stage (main s))%nat;
  inv_failed : seen is_sync_failed (trace s) = true ->
               exited s = Some (ExitFatal FatalCacheSync) /\ main s = PWaitForCacheSync;
  inv_mgr_spawned : mgrT s <> MNotSpawned -> seen is_go_mgr (trace s) = true;
  inv_mgr_running : mgrT s = MRunning -> seen is_mgr_start (trace s) = true;
  inv_hz : seen is_new_healthz (trace s) = true -> seen is_load_ok (trace s) = true;
  inv_api_called : api s <> ApiNotCalled -> seen is_api_run (trace s) = true;
  inv_api_listening : api s = ApiListening -> seen is_listening (trace s) = true;
  inv_ready : ready s = Some true -> seen is_ready (trace s) = true;
  inv_not_ready : seen is_ready (trace s) = false -> ready s <> Some true;
  inv_chain : forall c, held_chain (main s) = Some c -> loaded_in (trace s) c;
  inv_api_chain : forall pre c post,
      trace s = pre ++ EvApiServerRun c :: post -> loaded_in pre c;
  ord_mgr_sync : ordered is_go_mgr is_sync false (trace s) = true;
  ord_mgr_start : ordered is_go_mgr is_mgr_start false (trace s) = true;
  ord_sync_config : ordered is_sync_ok is_config false (trace s) = true;
  ord_config_watch : ordered is_config_ok is_go_watch false (trace s) = true;
  ord_config_load : ordered is_config_ok is_load false (trace s) = true;
  ord_load_cancel : ordered is_load_ok is_watch_cancel false (trace s) = true;
  ord_cancel_hz : ordered is_watch_cancel is_new_healthz false (trace s) = true;
  ord_cancel_gohz : ordered is_watch_cancel is_go_healthz false (trace s) = true;
  ord_hz_api : ordered is_go_healthz is_api_run false (trace s) = true;
  ord_api_listening : ordered is_api_run is_listening false (trace s) = true;
  ord_listening_ready : ordered is_listening is_ready false (trace s) = true;
  ord_start_updated : ordered is_mgr_start is_updated false (trace s) = true
}.

(** [happens_before p q tr]: in [tr], every [q] event comes after some [p]
    event. *)
Definition happens_before (p q : event -> bool) (tr : list event) : Prop :=
  precedes (fun e => p e = true) (fun e => q e = true) tr.

(** ** Sample executions *)

Definition state_after (b : built) (acts : list action) (s : state) : state :=
  match exec b acts s with
  | Some s' => s'
  | None => s
  end.

(** A complete start-up with the credential files in place. *)
Definition full_startup : list action :=
  [Main; MgrGo; Deliver (OnAdd (AnyComponent (Some a_component))); CacheSync;
   WaitForCacheSyncReturns true; LoadConfigurationReturns None;
   Main; WatcherGo; Main; Main; Main; HealthzGo; Main;
   Api ApiListen; Api ApiReady].

Definition started : state :=
  state_after sample_built full_startup (init 0 background all_files).

(** The informer delivers its first object while [Run] still waits for the
    cache to sync. *)
Definition early_delivery : list action :=
  [Main; MgrGo; Deliver (OnAdd (AnyComponent (Some a_component)))].

Definition delivered_early : state :=
  state_after sample_built early_delivery (init 0 background no_files).

(** ** The certificate watch *)


(** The watch context has ended with [DeadlineExceeded]. *)
Definition watch_expired (s : state) : bool :=
  match watchCtx s with
  | Some c => expired c
  | None => false
  end.



(** The watcher goroutine run to its end once the watch context has
    expired, [fswatcher.Watch] returning the context's error. *)
Definition watcher_finishes (w : watcher_pc) : list action :=
  match w with
  | WSpawned => [WatcherGo; WatchReturns (Some (ErrCtx DeadlineExceeded)); WatcherGo]
  | WInWatch => [WatchReturns (Some (ErrCtx DeadlineExceeded)); WatcherGo]
  | WReturned r => if watch_failed r then [WatcherGo] else [WatcherGo; WatcherGo]
  | WClosed => [WatcherGo]
  | WNotSpawned | WDone => []
  end.


Definition timeout_fatal (c : exit_cause) : bool :=
  match c with
  | ExitFatal (FatalWatch (ErrCtx DeadlineExceeded)) | ExitFatal FatalCertTimeout => true
  | _ => false
  end.


(** A context handed to [Run] at instant [t0] is sound when it has expired
    only if its deadline has passed. *)
Definition context_wf (t0 : Z) (ctx : context) : Prop :=
  expired ctx = true -> exists pd, deadline ctx = Some pd /\ pd <= t0.

(** What holds in every state about the watcher goroutine and the watch
    context. *)
Record watch_inv (s : state) : Prop := {
  w_config : (3 <= stage (main s))%nat -> config s <> None;
  w_spawned : (4 <= stage (main s))%nat -> watcher s <> WNotSpawned;
  w_ctx : watcher s <> WNotSpawned -> watchCtx s <> None;
  w_returned : forall r c, watcher s = WReturned r -> watchCtx s = Some c ->
               watch_may_return c r = true;
  w_closed : forall c, fsevent_closed s = true -> watchCtx s = Some c ->
             done c = true;
  w_done : forall c, watcher s = WDone -> watchCtx s = Some c ->
           err c = Some Canceled;
  w_cancelled : (6 <= stage (main s))%nat ->
                forall c, watchCtx s = Some c -> done c = true;
  w_exit_timeout : exited s = Some (ExitFatal FatalCertTimeout) ->
                   watcher s = WClosed /\ watch_expired s = true;
  w_exit_watch : forall e, exited s = Some (ExitFatal (FatalWatch e)) ->
                 watcher s = WReturned (Some e) /\ is_canceled e = false
}.

(** What holds in every state about deadlines and the clock. *)
Record time_inv (s : state) : Prop := {
  t_root : expired (rootCtx s) = true ->
           exists pd, deadline (rootCtx s) = Some pd /\ pd <= now s;
  t_bound : forall c cd pd, watchCtx s = Some c -> deadline c = Some cd ->
            deadline (rootCtx s) = Some pd -> cd <= pd;
  t_deadline : forall c, watchCtx s = Some c -> deadline c <> None;
  t_watch : forall c, watchCtx s = Some c -> expired c = true ->
            exists cd, deadline c = Some cd /\ cd <= now s
}.

Definition sample_chain : credentials.CertChain :=
  {| credentials.RootCA := "ca"; credentials.Cert := "cert";
     credentials.Key := "key" |}.

(** [Run] up to the call of [loadCertChain]. *)
Definition up_to_loadCertChain : list action :=
  [Main; MgrGo; CacheSync; WaitForCacheSyncReturns true;
   LoadConfigurationReturns None].

Definition at_loadCertChain (d : disk) : state :=
  state_after sample_built up_to_loadCertChain (init 0 background d).

(** [loadCertChain] has just returned the chain. *)
Definition up_to_chain : list action := up_to_loadCertChain ++ [Main; Main; Main].

Definition chain_loaded : state :=
  state_after sample_built up_to_chain (init 0 background all_files).





(** No files; the watch context expires after a minute. *)
Definition deadline_passes : list action :=
  up_to_loadCertChain ++ [Main; Main; WatcherGo; Tick Minute; WatchExpire].

Definition waiting_expired : state :=
  state_after sample_built deadline_passes (init 0 background no_files).

(** No files, and the caller cancels its context while [Run] waits; the
    watcher goroutine then ends without a fatal error. *)
Definition cancelled_while_waiting : list action :=
  up_to_loadCertChain
    ++ [Main; Main; WatcherGo; RootCancel;
        WatchReturns (Some (ErrCtx Canceled)); WatcherGo; WatcherGo].

Definition spinning : state :=
  state_after sample_built cancelled_while_waiting (init 0 background no_files).

(** [n] more rounds of the retry loop. *)
Fixpoint rounds (n : nat) : list action :=
  match n with
  | O => []
  | S k => Main :: Main :: rounds k
  end.

(** ** Observations on NewOperator *)

(** The options [NewOperator] creates the manager with (lines 94-100) and
    the watchdog it builds (lines 110-114). *)
Definition manager_options (opts : Options) : ctrl.Options :=
  {| ctrl.MetricsBindAddress := "0";
     ctrl.LeaderElection := Opts.LeaderElection opts;
     ctrl.LeaderElectionID := "operator.dapr.io";
     ctrl.Namespace := Opts.WatchNamespace opts |}.

Definition watchdog_of (opts : Options) : DaprWatchdog :=
  {| interval := Opts.WatchdogInterval opts;
     maxRestartsPerMin := Opts.WatchdogMaxRestartsPerMin opts |}.

(** Every call [NewOperator] makes for these options succeeds. *)
Definition construction_ok (env : cluster) (opts : Options) : Prop :=
  GetConfig_err env = None
  /\ NewManager_err env (manager_options opts) = None
  /\ (Opts.WatchdogEnabled opts = true -> Add_err env (watchdog_of opts) = None)
  /\ (Opts.ServiceReconcilerEnabled opts = true -> Init_err env = None)
  /\ GetInformer_err env = None.

(** The watchdogs added to the manager and the reconciler initialisations,
    in order. *)
Fixpoint added (evs : list event) : list DaprWatchdog :=
  match evs with
  | [] => []
  | EvMgrAdd wd :: rest => wd :: added rest
  | _ :: rest => added rest
  end.

Fixpoint reconcilers (evs : list event) : list bool :=
  match evs with
  | [] => []
  | EvHandlerInit argo :: rest => argo :: reconcilers rest
  | _ :: rest => reconcilers rest
  end.

Definition is_exit e := match e with EvExit _ => true | _ => false end.
Definition is_fatal_log e := match e with EvLog FatalLevel _ => true | _ => false end.
Definition is_add_handler e := match e with EvAddEventHandler => true | _ => false end.

(** The number of events of a kind in a trace. *)
Fixpoint occurrences (p : event -> bool) (tr : list event) : nat :=
  match tr with
  | [] => O
  | e :: rest => (if p e then 1 else 0) + occurrences p rest
  end%nat.

(** The options with the leader-election flag replaced. *)
Definition with_leader (l : bool) (opts : Options) : Options :=
  {| Opts.Config := Opts.Config opts;
     Opts.CertChainPath := Opts.CertChainPath opts;
     Opts.LeaderElection := l;
     Opts.WatchdogEnabled := Opts.WatchdogEnabled opts;
     Opts.WatchdogInterval := Opts.WatchdogInterval opts;
     Opts.WatchdogMaxRestartsPerMin := Opts.WatchdogMaxRestartsPerMin opts;
     Opts.WatchNamespace := Opts.WatchNamespace opts;
     Opts.ServiceReconcilerEnabled := Opts.ServiceReconcilerEnabled opts;
     Opts.ArgoRolloutServiceReconcilerEnabled :=
       Opts.ArgoRolloutServiceReconcilerEnabled opts |}.

(** A trace with the warnings removed and the leader-election flag of the
    manager options blanked. *)
Definition blank_leader (e : event) : list event :=
  match e with
  | EvLog Warn _ => []
  | EvNewManager o =>
      [EvNewManager {| ctrl.MetricsBindAddress := ctrl.MetricsBindAddress o;
                       ctrl.LeaderElection := false;
                       ctrl.LeaderElectionID := ctrl.LeaderElectionID o;
                       ctrl.Namespace := ctrl.Namespace o |}]
  | _ => [e]
  end.

(** What is left of the outcome of [NewOperator] when the manager options
    are left out. *)
Definition built_less_manager (r : outcome built)
  : outcome (operator * list DaprWatchdog) :=
  match r with
  | Ret b => Ret (op b, runnables b)
  | Stop c => Stop c
  end.

(** A cluster in which the service reconciler cannot be initialised, and
    options that enable it. *)
Definition no_reconciler_cluster : cluster :=
  {| GetConfig_err := None;
     NewManager_err := fun _ => None;
     Add_err := fun _ => None;
     Init_err := Some (ErrOther "no such kind");
     GetInformer_err := None |}.

Definition reconciling_options : Options :=
  {| Opts.Config := "daprsystem";
     Opts.CertChainPath := "/var/run/dapr/credentials";
     Opts.LeaderElection := true;
     Opts.WatchdogEnabled := false;
     Opts.WatchdogInterval := 0;
     Opts.WatchdogMaxRestartsPerMin := 0;
     Opts.WatchNamespace := "";
     Opts.ServiceReconcilerEnabled := true;
     Opts.ArgoRolloutServiceReconcilerEnabled := true |}.

(** ** Counting the steps of Run

    More kinds of events. *)
Definition is_config_failed e := match e with EvLoadConfiguration _ false => true | _ => false end.
Definition is_load_failed e := match e with EvLoadFromDisk _ None => true | _ => false end.
Definition is_close e := match e with EvCloseFsEvent => true | _ => false end.
Definition is_recv_closed e := match e with EvRecvFsEvent false => true | _ => false end.
Definition is_shutdown_log e :=
  match e with
  | EvLog Info msg => String.eqb msg "Dapr Operator is shutting down"
  | _ => false
  end.

(** The body of a goroutine has started: [mgr.Start], [fswatcher.Watch] and
    [healthzServer.Run] have been called. *)
Definition mgr_started (m : mgr_pc) : bool :=
  match m with MRunning | MReturned => true | _ => false end.
Definition watch_called (w : watcher_pc) : bool :=
  match w with WInWatch | WReturned _ | WClosed | WDone => true | _ => false end.
Definition healthz_started (h : healthz_pc) : bool :=
  match h with HRunning | HReturned => true | _ => false end.
(** [Run] has returned. *)
Definition returned (pc : main_pc) : bool :=
  match pc with PReturned => true | _ => false end.

(** The process has exited with a fatal error of the given kind. *)
Definition exit_is (f : fatal -> bool) (s : state) : bool :=
  match exited s with
  | Some (ExitFatal x) => f x
  | _ => false
  end.
Definition is_cache_sync_fatal f := match f with FatalCacheSync => true | _ => false end.
Definition is_load_config_fatal f := match f with FatalLoadConfiguration _ => true | _ => false end.

(** The reads of the retry loop that are not matched by a receive: the
    first one, once it is made; and while [Run] waits on [fsevent], the
    failed read that sent it there. *)
Definition pending_read (pc : main_pc) : nat :=
  match pc with
  | PStart | PWaitForCacheSync | PPrepareConfig | PLoadCertChain | PLoadFromDisk => 0
  | _ => 1
  end.
Definition waiting_read (pc : main_pc) : nat :=
  match pc with PRecvFsEvent => 1 | _ => 0 end.

(** 1 when [Run] has [k] start-up steps behind it, 0 before. *)
Definition reached (k : nat) (s : state) : nat := Nat.b2n (k <=? stage (main s))%nat.

(** What holds in every state about how often each step has been taken,
    which goroutines exist, and which names and paths are used. *)
Record run_inv (b : built) (s : state) : Prop := {
  n_go_mgr : occurrences is_go_mgr (trace s) = reached 1 s;
  n_mgr_start : occurrences is_mgr_start (trace s) = Nat.b2n (mgr_started (mgrT s));
  n_sync : occurrences is_sync (trace s)
           = (reached 2 s + Nat.b2n (exit_is is_cache_sync_fatal s))%nat;
  n_config : occurrences is_config (trace s)
             = (reached 3 s + Nat.b2n (exit_is is_load_config_fatal s))%nat;
  n_go_watch : occurrences is_go_watch (trace s) = reached 4 s;
  n_watch_call : occurrences is_watch_call (trace s) = Nat.b2n (watch_called (watcher s));
  n_close : occurrences is_close (trace s) = Nat.b2n (fsevent_closed s);
  n_load_ok : occurrences is_load_ok (trace s) = reached 5 s;
  n_watch_cancel : occurrences is_watch_cancel (trace s) = reached 6 s;
  n_new_healthz : occurrences is_new_healthz (trace s) = reached 7 s;
  n_go_healthz : occurrences is_go_healthz (trace s) = reached 7 s;
  n_healthz_run : occurrences is_healthz_run (trace s)
                  = Nat.b2n (healthz_started (healthzT s));
  n_api_run : occurrences is_api_run (trace s) = reached 8 s;
  n_exit : occurrences is_exit (trace s) = Nat.b2n (negb (alive s));
  n_shutdown : occurrences is_shutdown_log (trace s) = Nat.b2n (returned (main s));
  n_reads : occurrences is_load (trace s)
            = (occurrences is_recv (trace s) + pending_read (main s))%nat;
  n_failed_reads : occurrences is_load_failed (trace s)
                   = (occurrences is_recv (trace s) + waiting_read (main s))%nat;
  p_mgr : (stage (main s) <= 0)%nat -> mgrT s = MNotSpawned;
  p_watcher : (stage (main s) <= 3)%nat -> watcher s = WNotSpawned;
  p_healthz : (stage (main s) <= 6)%nat -> healthzT s = HNotSpawned;
  p_api_idle : (stage (main s) <= 7)%nat -> api s = ApiNotCalled;
  p_api_busy : main s = PInApiServerRun ->
               api s <> ApiNotCalled /\ api s <> ApiReturned;
  p_api_done : returned (main s) = true \/ main s = PShuttingDown ->
               api s = ApiReturned;
  p_sync_fatal : exit_is is_cache_sync_fatal s = true -> main s = PWaitForCacheSync;
  p_config_fatal : exit_is is_load_config_fatal s = true -> main s = PPrepareConfig;
  p_config_failed : seen is_config_failed (trace s) = true ->
                    exit_is is_load_config_fatal s = true;
  p_recv_closed : seen is_recv_closed (trace s) = true -> fsevent_closed s = true;
  p_names : forall name ok, In (EvLoadConfiguration name ok) (trace s) ->
            name = configName (op b);
  p_paths : forall path, In (EvWatchCall path) (trace s) ->
            path = certChainPath (op b);
  p_config : forall cfg, config s = Some cfg ->
             credentials.Path (Credentials cfg) = certChainPath (op b);
  p_port : forall p, In (EvHealthzRun p) (trace s) -> p = healthzPort;
  p_ctx : (stage (main s) <= 3)%nat -> watchCtx s = None
}.

(** ** Order of the goroutines' steps *)

(** [Run] has [k] start-up steps behind it; the watcher and the health
    goroutine have been launched. *)
Definition at_least (k : nat) (s : state) : bool := (k <=? stage (main s))%nat.
Definition spawned_w (w : watcher_pc) : bool :=
  match w with WNotSpawned => false | _ => true end.
Definition spawned_h (h : healthz_pc) : bool :=
  match h with HNotSpawned => false | _ => true end.

(** What holds in every state about the order in which goroutines are
    launched, run and close the channel. *)
Record order_inv (s : state) : Prop := {
  q_go_watch : at_least 4 s = true -> seen is_go_watch (trace s) = true;
  q_api : at_least 8 s = true -> seen is_api_run (trace s) = true;
  q_watcher : spawned_w (watcher s) = true -> seen is_go_watch (trace s) = true;
  q_healthz : spawned_h (healthzT s) = true -> seen is_go_healthz (trace s) = true;
  q_called : watch_called (watcher s) = true -> seen is_watch_call (trace s) = true;
  q_closed : fsevent_closed s = true -> seen is_close (trace s) = true;
  o_watch_call : ordered is_go_watch is_watch_call false (trace s) = true;
  o_watch_load : ordered is_go_watch is_load false (trace s) = true;
  o_call_close : ordered is_watch_call is_close false (trace s) = true;
  o_close_recv : ordered is_close is_recv_closed false (trace s) = true;
  o_hz_run : ordered is_go_healthz is_healthz_run false (trace s) = true;
  o_api_shutdown : ordered is_api_run is_shutdown_log false (trace s) = true
}.

(** ** Notifications, and the watch context *)

(** The object a notification carries to [syncComponent], if any. *)
Definition payload (n : notification) : option any :=
  match n with
  | OnAdd obj => Some obj
  | OnUpdate _ newObj => Some newObj
  | OnDelete _ => None
  end.

(** The notification carries a nil [*Component]. *)
Definition nil_component (n : notification) : bool :=
  match payload n with
  | Some (AnyComponent None) => true
  | _ => false
  end.

(** The component a notification makes [syncComponent] forward, if any. *)
Definition component_of (n : notification) : list componentsapi.Component :=
  match payload n with
  | Some (AnyComponent (Some c)) => [c]
  | _ => []
  end.

(** The watch context has ended with [Canceled]: by [watchCancel()] or by
    the caller cancelling its context. *)
Definition watch_cancelled (s : state) : Prop :=
  exists c, watchCtx s = Some c /\ err c = Some Canceled.

(** What holds in every state of a run entered at [t0] with context [ctx]
    about the clock and the deadline of the watch context. *)
Record wait_inv (t0 : Z) (ctx : context) (s : state) : Prop := {
  d_now : t0 <= now s;
  d_root : deadline (rootCtx s) = deadline ctx;
  d_root_live : deadline ctx = None -> expired (rootCtx s) = false;
  d_watch : forall c cd, watchCtx s = Some c -> deadline c = Some cd ->
            deadline ctx = None -> t0 + Minute <= cd
}.

(** More sample executions. *)
Definition sample_notifications : list notification :=
  [OnAdd (AnyComponent (Some a_component));
   OnDelete (AnyComponent (Some a_component));
   OnAdd (AnyOther "v1.Pod");
   OnUpdate (AnyComponent (Some a_component)) (AnyComponent (Some another_component))].

Definition manager_running : state :=
  state_after sample_built [Main; MgrGo] (init 0 background no_files).

Definition files_arrive : list action :=
  up_to_loadCertChain ++ [Main; Main; WatcherGo; DiskSet all_files].

Definition waiting_with_files : state :=
  state_after sample_built files_arrive (init 0 background no_files).

Definition shut_down : state :=
  state_after sample_built (full_startup ++ [Api ApiRunReturns; Main])
    (init 0 background all_files).

Definition waiting : state :=
  state_after sample_built (up_to_loadCertChain ++ [Main; Main; WatcherGo])
    (init 0 background no_files).

Definition config_failed : state :=
  state_after sample_built
    [Main; MgrGo; CacheSync; WaitForCacheSyncReturns true;
     LoadConfigurationReturns (Some (ErrOther "not found"))]
    (init 0 background all_files).

Definition panicked : state :=
  state_after sample_built [Deliver (OnAdd (AnyComponent None))] manager_running.

Definition manager_stops : list action :=
  [MgrStartReturns (Some (ErrOther "stopped"))].

Definition stopped_after_cancel : state :=
  state_after sample_built manager_stops spinning.

(** ** What a step forwards, and the statements of a call of loadCertChain *)

(** The components a step hands to [OnComponentUpdated]: those of a
    delivered add or update notification, nothing for any other step. *)
Definition forwarded (a : action) : list componentsapi.Component :=
  match a with
  | Deliver n => component_of n
  | _ => []
  end.






(** [fswatcher.Watch] fails while the files are in place, before [Run] has
    made its first read. *)
Definition watch_fails_first : list action :=
  [Main; WatcherGo; WatchReturns (Some (ErrOther "no such directory")); WatcherGo].

Definition watch_failed_first : state :=
  state_after sample_built watch_fails_first (at_loadCertChain all_files).

(** * Properties *)

(** ** syncComponent and the registered handlers *)

Lemma NewOperator_handlers env opts b :
  result (NewOperator env opts) = Ret b ->
  handlers b = componentHandlers /\
  configName (op b) = Opts.Config opts /\
  certChainPath (op b) = Opts.CertChainPath opts /\
  ctrl.LeaderElection (mgrOptions b) = Opts.LeaderElection opts.
Proof.
  unfold NewOperator, check, result.
  destruct (GetConfig_err env); simpl; [discriminate|].
  destruct (NewManager_err env _); simpl; [discriminate|].
  destruct (Opts.WatchdogEnabled opts), (Opts.LeaderElection opts); simpl;
    try destruct (Add_err env _); simpl; try discriminate;
    destruct (Opts.ServiceReconcilerEnabled opts); simpl;
    try destruct (Init_err env); simpl; try discriminate;
    destruct (GetInformer_err env); simpl; try discriminate;
    intros H; inversion H; subst; simpl; auto.
Qed.

(** C8, as the spec states it, asks for a log entry when a payload of
    another type is dropped.  [syncComponent] writes none: on a payload that
    is not a component it emits nothing at all. *)
Lemma syncComponent_mismatch_not_logged :
  ~ (exists l msg, In (l, msg) (logs (events (syncComponent (AnyOther "v1.Pod"))))).
Proof. simpl. intros (l & msg & []). Qed.

(** C8 (amended): [syncComponent] calls [OnComponentUpdated] exactly once,
    with the payload, when the payload is a component, and not at all
    otherwise; a payload of another type is dropped without any log entry
    and the callback returns normally (no exit, no panic). *)
Theorem syncComponent_forwards_components_only :
  forall obj,
    calls (events (syncComponent obj)) =
      match obj with
      | AnyComponent (Some c) => [c]
      | _ => []
      end
    /\ forall kind,
         logs (events (syncComponent (AnyOther kind))) = []
         /\ events (syncComponent (AnyOther kind)) = []
         /\ result (syncComponent (AnyOther kind)) = Ret tt.
Proof.
  intros obj. split.
  - destruct obj as [[c|]|k]; reflexivity.
  - intros kind. repeat split.
Qed.

(** C10: the notification forwarded on an update depends on the new object
    only.  For the handlers [NewOperator] registers, two update events with
    the same new object and any two old objects run the same computation
    (same log lines, same [OnComponentUpdated] calls, same outcome), and so
    move the process to the same state. *)
Theorem update_ignores_old_object :
  forall env opts b oldObj1 oldObj2 newObj,
    result (NewOperator env opts) = Ret b ->
    dispatch (handlers b) (OnUpdate oldObj1 newObj)
      = dispatch (handlers b) (OnUpdate oldObj2 newObj)
    /\ dispatch (handlers b) (OnUpdate oldObj1 newObj) = syncComponent newObj
    /\ forall s, step b (Deliver (OnUpdate oldObj1 newObj)) s
                 = step b (Deliver (OnUpdate oldObj2 newObj)) s.
Proof.
  intros env opts b o1 o2 n Hb.
  apply NewOperator_handlers in Hb. destruct Hb as (Hh & _).
  unfold step. rewrite Hh. simpl. auto.
Qed.

Lemma update_ignores_old_object_witness :
  result (NewOperator healthy_cluster (sample_options true false)) = Ret sample_built
  /\ dispatch (handlers sample_built)
       (OnUpdate (AnyComponent (Some a_component)) (AnyComponent (Some another_component)))
     = dispatch (handlers sample_built)
         (OnUpdate (AnyOther "v1.Pod") (AnyComponent (Some another_component))).
Proof.
  split; [reflexivity|].
  apply (update_ignores_old_object healthy_cluster (sample_options true false)
           sample_built (AnyComponent (Some a_component)) (AnyOther "v1.Pod")
           (AnyComponent (Some another_component))).
  reflexivity.
Defined.

(** ** NewOperator and leader election *)

(** C7: with the watchdog enabled and leader election disabled,
    [NewOperator] writes the warning that leader election "is forcibly
    enabled", yet the manager, to which the watchdog is added, was created
    with [LeaderElection] false: nothing is forced. *)
Theorem NewOperator_does_not_force_leader_election :
  let r := NewOperator healthy_cluster (sample_options false true) in
  In (Warn, forced_warning) (logs (events r))
  /\ exists b,
       result r = Ret b
       /\ ctrl.LeaderElection (mgrOptions b) = false
       /\ In (EvNewManager (mgrOptions b)) (events r)
       /\ runnables b = [ {| interval := 10 * Second; maxRestartsPerMin := 2 |} ].
Proof.
  simpl. split; [auto|].
  eexists. repeat split. simpl. auto.
Qed.

(** ** The restart budget *)



Lemma charged_nonneg w rs : 0 <= Watchdog.charged w rs.
Proof. unfold Watchdog.charged. lia. Qed.
















(** The scenario of the spec: limit 2, five eligible targets on the first
    tick: exactly two restarts are issued, the other three are skipped and
    not queued, and the next tick in the same window issues none. *)
Example restart_budget_scenario :
  map (fun r => Watchdog.name (Watchdog.target r))
      (fst (Watchdog.run Watchdog.sample_watchdog
              [ {| Watchdog.instant := 5 * Second; Watchdog.leader := true;
                   Watchdog.found := Watchdog.five |};
                {| Watchdog.instant := 15 * Second; Watchdog.leader := true;
                   Watchdog.found := Watchdog.five |} ]
              (Watchdog.fresh 0)))
  = ["a"; "b"].
Proof. reflexivity. Qed.

(** The bound is per budget window: restarts issued at the very end of one
    window and at the start of the next are charged to different windows. *)
Example restart_budget_window_boundary :
  map (fun r => (Watchdog.issuedAt r, Watchdog.window r))
      (fst (Watchdog.run Watchdog.sample_watchdog
              [ {| Watchdog.instant := 59 * Second; Watchdog.leader := true;
                   Watchdog.found := Watchdog.five |};
                {| Watchdog.instant := 60 * Second; Watchdog.leader := true;
                   Watchdog.found := Watchdog.five |} ]
              (Watchdog.fresh 0)))
  = [(59 * Second, 0); (59 * Second, 0);
     (60 * Second, 60 * Second); (60 * Second, 60 * Second)].
Proof. reflexivity. Qed.

(** ** Traces *)

Lemma seen_app p tr evs : seen p (tr ++ evs) = seen p tr || seen p evs.
Proof. apply existsb_app. Qed.

Lemma ordered_app p q tr : forall before evs,
  ordered p q before (tr ++ evs)
  = ordered p q before tr && ordered p q (before || seen p tr) evs.
Proof.
  induction tr as [|e tr IH]; intros before evs; simpl.
  - rewrite orb_false_r. reflexivity.
  - rewrite IH. rewrite <- andb_assoc, orb_assoc. reflexivity.
Qed.

Lemma ordered_weaken p q tr : forall before,
  ordered p q before tr = true -> ordered p q true tr = true.
Proof.
  induction tr as [|e tr IH]; intros before H; simpl in *; [reflexivity|].
  apply andb_true_iff in H. destruct H as (_ & H).
  rewrite implb_true_r. simpl. destruct before; simpl in H; eauto.
Qed.

Lemma seen_In p tr : seen p tr = true -> exists e, In e tr /\ p e = true.
Proof. apply existsb_exists. Qed.

Lemma ordered_precedes p q tr :
  ordered p q false tr = true ->
  precedes (fun e => p e = true) (fun e => q e = true) tr.
Proof.
  intros H pre e post E Hq. subst tr.
  rewrite ordered_app in H. apply andb_true_iff in H. destruct H as (_ & H).
  simpl in H. rewrite Hq in H. simpl in H.
  apply andb_true_iff in H. destruct H as (H & _).
  apply seen_In. assumption.
Qed.

Lemma precedes_trans (P Q R : event -> Prop) tr :
  precedes P Q tr -> precedes Q R tr -> precedes P R tr.
Proof.
  intros HPQ HQR pre e post E HR.
  destruct (HQR pre e post E HR) as (e1 & Hin & HQ).
  apply in_split in Hin. destruct Hin as (pre1 & post1 & E1).
  subst pre. rewrite <- app_assoc in E. simpl in E.
  destruct (HPQ pre1 e1 _ E HQ) as (e0 & Hin0 & HP).
  exists e0. split; [|assumption]. apply in_or_app. auto.
Qed.

Lemma split_snoc {A} (tr pre post : list A) (e x : A) :
  tr ++ [e] = pre ++ x :: post ->
  (pre = tr /\ x = e /\ post = [])
  \/ exists post', post = post' ++ [e] /\ tr = pre ++ x :: post'.
Proof.
  revert pre. induction tr as [|a tr IH]; intros pre E; simpl in E.
  - destruct pre as [|b pre]; simpl in E.
    + inversion E; subst. auto.
    + inversion E; subst. destruct pre; discriminate.
  - destruct pre as [|b pre]; simpl in E.
    + inversion E; subst. right. exists tr. auto.
    + inversion E; subst. destruct (IH pre H1) as [(-> & -> & ->)|(post' & -> & ->)].
      * auto.
      * right. exists post'. auto.
Qed.

Lemma loaded_in_app tr evs c : loaded_in tr c -> loaded_in (tr ++ evs) c.
Proof.
  intros (chain & d & H1 & H2 & H3). exists chain, d.
  split; [assumption|]. split; [apply in_or_app; auto|assumption].
Qed.

(** ** The start-up invariant *)

Lemma seen_mono p tr evs : seen p tr = true -> seen p (tr ++ evs) = true.
Proof. intros H. rewrite seen_app, H. reflexivity. Qed.

Lemma api_chain_app tr evs :
  (forall pre c post, tr = pre ++ EvApiServerRun c :: post -> loaded_in pre c) ->
  seen is_api_run evs = false ->
  forall pre c post, tr ++ evs = pre ++ EvApiServerRun c :: post -> loaded_in pre c.
Proof.
  intros H Hn pre c post E.
  apply app_eq_app in E. destruct E as (l & [(E1 & E2)|(E1 & E2)]).
  - destruct l as [|x l]; simpl in E2.
    + subst evs. simpl in Hn. discriminate.
    + inversion E2; subst. eapply H. reflexivity.
  - subst evs. unfold seen in Hn. rewrite existsb_app in Hn. simpl in Hn.
    rewrite orb_true_r in Hn. discriminate.
Qed.

Ltac break_step H :=
  repeat match type of H with
  | Some _ = Some _ => inversion H; subst; clear H
  | None = Some _ => discriminate H
  | context [match ?x with _ => _ end] => destruct x eqn:?
  | context [if ?x then _ else _] => destruct x eqn:?
  end.

Lemma passed_mono n tr evs : passed n tr = true -> passed n (tr ++ evs) = true.
Proof.
  induction n as [|n IH]; simpl; intros H; [reflexivity|].
  apply andb_true_iff in H. destruct H as (H1 & H2).
  rewrite (seen_mono _ _ _ H1), (IH H2). reflexivity.
Qed.

Lemma alive_exited s : alive s = true -> exited s = None.
Proof. unfold alive. destruct (exited s); [discriminate|reflexivity]. Qed.

Local Arguments String.append : simpl never.

Ltac use_pcs :=
  repeat match goal with
  | E : main ?s = _ |- _ => rewrite E in *; clear E
  | E : api ?s = _ |- _ => rewrite E in *; clear E
  | E : mgrT ?s = _ |- _ => rewrite E in *; clear E
  | E : healthzT ?s = _ |- _ => rewrite E in *; clear E
  end.

Ltac split_bools :=
  repeat match goal with
  | H : _ /\ _ |- _ => destruct H
  | H : _ && _ = true |- _ => apply andb_true_iff in H; destruct H
  end.

Ltac known :=
  repeat match goal with
  | H : seen ?p ?t = true |- _ => rewrite H in *; clear H
  | H : seen ?p ?t = false |- _ => rewrite H in *; clear H
  | H : ordered ?p ?q ?x ?t = true |- _ => rewrite H in *; clear H
  | H : true = true -> _ |- _ => specialize (H eq_refl)
  | H : ?a <> ?b -> _ |- _ =>
      let K := fresh in assert (K : a <> b) by discriminate; specialize (H K); clear K
  | H : ?a = ?a -> _ |- _ => specialize (H eq_refl)
  end.

Ltac finish :=
  rewrite <- ?app_assoc; simpl;
  try assumption;
  try (apply passed_mono; assumption);
  try (intros ? ?; apply loaded_in_app; auto; fail);
  try (apply api_chain_app; [assumption|reflexivity]);
  intros;
  rewrite ?seen_app, ?ordered_app in *; simpl in *;
  rewrite ?orb_false_r in *; split_bools; known; split_bools; known; simpl in *;
  rewrite ?orb_true_r, ?orb_false_r in *; simpl in *;
  try reflexivity; try assumption; try discriminate; try congruence; try lia;
  auto.

Ltac step_cases H Hb s :=
  unfold step in H;
  destruct (alive s) eqn:?; simpl in H; [|discriminate];
  match type of H with
  | match ?a with _ => _ end = _ => destruct a
  end;
  try match type of H with context [apiServerRun ?x _] =>
        destruct x; destruct (api s) eqn:?; simpl in H
      end;
  unfold step_main, step_watcher in H; try rewrite Hb in H;
  try match type of H with context [dispatch _ ?n] =>
        destruct n as [[[?|]|?]|? [[?|]|?]|?]; simpl in H
      end;
  break_step H.

Lemma LoadFromDisk_inl d chain :
  LoadFromDisk d = inl chain ->
  rootCertFile d = Some (credentials.RootCA chain)
  /\ certFile d = Some (credentials.Cert chain)
  /\ keyFile d = Some (credentials.Key chain).
Proof.
  unfold LoadFromDisk.
  destruct (rootCertFile d), (certFile d), (keyFile d); intros H;
    inversion H; subst; simpl; auto.
Qed.

Lemma startup_inv_step b a s s' :
  handlers b = componentHandlers ->
  startup_inv s -> step b a s = Some s' -> startup_inv s'.
Proof.
  intros Hb I H.
  assert (Hnf : alive s = true -> seen is_sync_failed (trace s) = false).
  { intros Ea. apply alive_exited in Ea.
    destruct (seen is_sync_failed (trace s)) eqn:E; [|reflexivity].
    destruct (inv_failed s I E) as (E' & _). congruence. }
  step_cases H Hb s.
  all: match goal with Ea : alive _ = true |- _ =>
         first [specialize (Hnf Ea) | specialize (Hnf eq_refl)];
         apply alive_exited in Ea end.
  all: destruct I.
  all: constructor; simpl in *; use_pcs.
  all: try solve [finish].
  - intros c0 E. inversion E; subst; clear E.
    destruct (LoadFromDisk_inl _ _ Heqs0) as (F1 & F2 & F3).
    exists c, (files s). repeat split; auto.
    apply in_or_app. right. simpl. auto.
  - intros pre c post E.
    apply split_snoc in E. destruct E as [(-> & E & _)|(post' & _ & E)].
    + inversion E; subst. apply inv_chain0. reflexivity.
    + eapply inv_api_chain0; eassumption.
Qed.

Lemma startup_inv_init t0 ctx d : startup_inv (init t0 ctx d).
Proof.
  constructor; simpl; try reflexivity; try discriminate; try congruence.
  intros pre c post E. destruct pre; discriminate.
Qed.

Lemma exec_invariant b (P : state -> Prop) :
  (forall a s s', P s -> step b a s = Some s' -> P s') ->
  forall acts s s', P s -> exec b acts s = Some s' -> P s'.
Proof.
  intros Hstep acts. induction acts as [|a acts IH]; intros s s' Hs E; simpl in E.
  - inversion E; subst. assumption.
  - destruct (step b a s) as [s1|] eqn:E1; [|discriminate].
    eapply IH; [|eassumption]. eapply Hstep; eassumption.
Qed.

Lemma startup_inv_reachable b t0 ctx d s :
  handlers b = componentHandlers ->
  reachable b t0 ctx d s -> startup_inv s.
Proof.
  intros Hb (acts & E).
  eapply (exec_invariant b startup_inv); [|apply startup_inv_init|exact E].
  intros a s1 s2. apply startup_inv_step. assumption.
Qed.

Lemma built_handlers env opts b :
  result (NewOperator env opts) = Ret b -> handlers b = componentHandlers.
Proof. intros H. apply NewOperator_handlers in H. apply H. Qed.

Lemma happens_before_trans p q r tr :
  happens_before p q tr -> happens_before q r tr -> happens_before p r tr.
Proof. apply precedes_trans. Qed.

(** ** Start-up order *)


Lemma sample_built_by :
  result (NewOperator healthy_cluster (sample_options true false)) = Ret sample_built.
Proof. reflexivity. Qed.

Lemma started_reachable : reachable sample_built 0 background all_files started.
Proof. exists full_startup. vm_compute. reflexivity. Qed.


Lemma happens_before_weaken p q q' tr :
  (forall e, q' e = true -> q e = true) ->
  happens_before p q tr -> happens_before p q' tr.
Proof.
  intros Hq H pre e post E He. apply (H pre e post E). apply Hq. assumption.
Qed.

Lemma config_ok_is_config e : is_config_ok e = true -> is_config e = true.
Proof. destruct e; try discriminate. reflexivity. Qed.

Lemma load_ok_is_load e : is_load_ok e = true -> is_load e = true.
Proof. destruct e; try discriminate. reflexivity. Qed.

(** ** Readiness *)

(** C9: in every execution of [Run] the readiness flag of the health server
    becomes true only in the step in which the API server calls the
    readiness callback it was given; that call comes after the API server
    has bound its listeners, after [apiServer.Run] was called, and after
    the cache sync, the configuration load and the certificate load have
    succeeded.  Before that call the flag is not true. *)
Theorem readiness_only_after_startup :
  forall env opts b t0 ctx d s,
    result (NewOperator env opts) = Ret b ->
    reachable b t0 ctx d s ->
    (ready s = Some true -> seen is_ready (trace s) = true)
    /\ (seen is_ready (trace s) = false -> ready s <> Some true)
    /\ (forall a s', step b a s = Some s' -> ready s' = Some true ->
          ready s = Some true \/ a = Api ApiReady)
    /\ happens_before is_listening is_ready (trace s)
    /\ happens_before is_api_run is_ready (trace s)
    /\ happens_before is_watch_cancel is_ready (trace s)
    /\ happens_before is_load_ok is_ready (trace s)
    /\ happens_before is_config_ok is_ready (trace s)
    /\ happens_before is_sync_ok is_ready (trace s).
Proof.
  intros env opts b t0 ctx d s Hb Hr.
  apply built_handlers in Hb.
  pose proof (startup_inv_reachable b t0 ctx d s Hb Hr) as I.
  destruct I.
  assert (H1 : happens_before is_listening is_ready (trace s))
    by (apply ordered_precedes; assumption).
  assert (H2 : happens_before is_api_run is_ready (trace s)).
  { eapply happens_before_trans; [|exact H1]. apply ordered_precedes; assumption. }
  assert (H3 : happens_before is_watch_cancel is_ready (trace s)).
  { eapply happens_before_trans; [|exact H2].
    eapply happens_before_trans; [apply ordered_precedes; exact ord_cancel_gohz0|].
    apply ordered_precedes; assumption. }
  assert (H4 : happens_before is_load_ok is_ready (trace s)).
  { eapply happens_before_trans; [|exact H3]. apply ordered_precedes; assumption. }
  assert (H5 : happens_before is_config_ok is_ready (trace s)).
  { eapply happens_before_trans; [|exact H4].
    eapply happens_before_weaken; [apply load_ok_is_load|].
    apply ordered_precedes; assumption. }
  assert (H6 : happens_before is_sync_ok is_ready (trace s)).
  { eapply happens_before_trans; [|exact H5].
    eapply happens_before_weaken; [apply config_ok_is_config|].
    apply ordered_precedes; assumption. }
  repeat split; try assumption.
  intros a s' H Hs'.
  step_cases H Hb s; simpl in Hs'; auto; try discriminate.
Qed.

Lemma readiness_only_after_startup_witness :
  reachable sample_built 0 background all_files started
  /\ ready started = Some true
  /\ seen is_ready (trace started) = true
  /\ happens_before is_listening is_ready (trace started)
  /\ happens_before is_sync_ok is_ready (trace started).
Proof.
  assert (Hb : result (NewOperator healthy_cluster (sample_options true false))
               = Ret sample_built) by reflexivity.
  assert (Hr : reachable sample_built 0 background all_files started)
    by (exists full_startup; vm_compute; reflexivity).
  destruct (readiness_only_after_startup healthy_cluster
              (sample_options true false) sample_built 0 background
              all_files started Hb Hr)
    as (H1 & _ & _ & H4 & _ & _ & _ & _ & H9).
  split; [exact Hr|]. split; [reflexivity|].
  split; [apply H1; reflexivity|]. split; assumption.
Defined.

(** ** The certificate chain handed to the API server *)

(** C3: whenever [loadCertChain] has returned, and whenever
    [apiServer.Run] is called, the chain at hand is not nil and is the
    result of an earlier read in which [LoadFromDisk] succeeded, on a disk
    where the root certificate, the certificate and the key were all
    readable and are the three blobs of the chain. *)
Theorem api_server_gets_fully_loaded_chain :
  forall env opts b t0 ctx d s,
    result (NewOperator env opts) = Ret b ->
    reachable b t0 ctx d s ->
    (forall c, main s = PHealthz c -> loaded_in (trace s) c)
    /\ (forall pre c post,
          trace s = pre ++ EvApiServerRun c :: post -> loaded_in pre c)
    /\ (forall c, In (EvApiServerRun c) (trace s) -> c <> None).
Proof.
  intros env opts b t0 ctx d s Hb Hr.
  apply built_handlers in Hb.
  pose proof (startup_inv_reachable b t0 ctx d s Hb Hr) as I.
  destruct I. repeat split.
  - intros c E. apply inv_chain0. rewrite E. reflexivity.
  - assumption.
  - intros c Hin. apply in_split in Hin. destruct Hin as (pre & post & E).
    destruct (inv_api_chain0 pre c post E) as (chain & d' & -> & _).
    discriminate.
Qed.

Lemma api_server_gets_fully_loaded_chain_witness :
  reachable sample_built 0 background all_files chain_loaded
  /\ main chain_loaded = PHealthz (Some sample_chain)
  /\ loaded_in (trace chain_loaded) (Some sample_chain).
Proof.
  assert (Hb : result (NewOperator healthy_cluster (sample_options true false))
               = Ret sample_built) by reflexivity.
  assert (Hr : reachable sample_built 0 background all_files chain_loaded)
    by (exists up_to_chain; vm_compute; reflexivity).
  assert (Hm : main chain_loaded = PHealthz (Some sample_chain)) by reflexivity.
  split; [exact Hr|]. split; [exact Hm|].
  exact (proj1 (api_server_gets_fully_loaded_chain healthy_cluster
                  (sample_options true false) sample_built 0 background
                  all_files chain_loaded Hb Hr) (Some sample_chain) Hm).
Defined.

(** ** Change notifications and cache sync *)

Lemma calls_app evs evs' : calls (evs ++ evs') = calls evs ++ calls evs'.
Proof.
  induction evs as [|e evs IH]; simpl; [reflexivity|].
  destruct e; simpl; rewrite ?IH; reflexivity.
Qed.

(** C2, as the spec states it, does not hold: the informer can deliver an
    object as soon as the manager runs.  Here [Run] is still blocked in
    [WaitForCacheSync], the cache has not synced, and [OnComponentUpdated]
    has already been called. *)
Lemma component_updated_before_cache_sync :
  reachable sample_built 0 background no_files delivered_early
  /\ main delivered_early = PWaitForCacheSync
  /\ cacheSynced delivered_early = false
  /\ seen is_sync (trace delivered_early) = false
  /\ calls (trace delivered_early) = [a_component]
  /\ ~ happens_before is_sync_ok is_updated (trace delivered_early).
Proof.
  split; [exists early_delivery; vm_compute; reflexivity|].
  repeat split.
  intros H.
  destruct (H [EvLog Info "Dapr Operator is starting"; EvGoMgrStart; EvMgrStart;
               EvLog Debug "Observed component to be synced, default/statestore"]
              (EvOnComponentUpdated a_component) [] eq_refl eq_refl)
    as (e & Hin & He).
  simpl in Hin. destruct Hin as [<-|[<-|[<-|[<-|[]]]]]; discriminate.
Qed.

(** No step but the delivery of a notification calls
    [OnComponentUpdated]. *)
Lemma step_calls b a s s' :
  handlers b = componentHandlers ->
  step b a s = Some s' ->
  calls (trace s') = calls (trace s) ++ forwarded a.
Proof.
  intros Hb H.
  step_cases H Hb s; simpl; rewrite ?calls_app; simpl;
    rewrite ?app_nil_r; reflexivity.
Qed.

Lemma exec_calls b acts :
  handlers b = componentHandlers ->
  forall s s', exec b acts s = Some s' ->
  calls (trace s') = calls (trace s) ++ flat_map forwarded acts.
Proof.
  intros Hb. induction acts as [|a acts IH]; intros s s' E; simpl in E.
  - inversion E; subst. rewrite app_nil_r. reflexivity.
  - destruct (step b a s) as [s1|] eqn:E1; [|discriminate].
    rewrite (IH _ _ E), (step_calls b a s s1 Hb E1). simpl.
    rewrite app_assoc. reflexivity.
Qed.

(** C2 (amended): in every execution of [Run], [OnComponentUpdated] is
    called exactly once for each add or update notification that carries a
    component (for an update, with the new object), in the order of
    delivery, and by no other step.  A notification is forwarded at the
    moment the informer delivers it, whether or not the cache has synced
    and wherever [Run] stands: nothing holds it back until
    [WaitForCacheSync] has returned. *)
Theorem component_updated_exactly_on_delivery :
  forall env opts b t0 ctx d acts s,
    result (NewOperator env opts) = Ret b ->
    exec b acts (init t0 ctx d) = Some s ->
    calls (trace s) = flat_map forwarded acts
    /\ forall n,
         alive s = true -> mgrT s = MRunning -> nil_component n = false ->
         exists s',
           step b (Deliver n) s = Some s'
           /\ calls (trace s') = calls (trace s) ++ component_of n
           /\ alive s' = true
           /\ cacheSynced s' = cacheSynced s
           /\ main s' = main s.
Proof.
  intros env opts b t0 ctx d acts s Hb E.
  apply built_handlers in Hb. split.
  - rewrite (exec_calls b acts Hb _ _ E). reflexivity.
  - intros n Ha Hm Hn. unfold step. rewrite Ha, Hm, Hb. simpl.
    destruct n as [[[c|]|k]|o [[c|]|k]|o]; simpl in *; try discriminate;
      (eexists; split; [reflexivity|]; simpl; rewrite ?calls_app; simpl;
       rewrite ?app_nil_r; auto).
Qed.

Lemma component_updated_exactly_on_delivery_witness :
  exec sample_built early_delivery (init 0 background no_files) = Some delivered_early
  /\ main delivered_early = PWaitForCacheSync
  /\ calls (trace delivered_early) = [a_component].
Proof.
  assert (Hb : result (NewOperator healthy_cluster (sample_options true false))
               = Ret sample_built) by reflexivity.
  assert (He : exec sample_built early_delivery (init 0 background no_files)
               = Some delivered_early) by (vm_compute; reflexivity).
  assert (Hm : main delivered_early = PWaitForCacheSync) by reflexivity.
  split; [exact He|]. split; [exact Hm|].
  exact (proj1 (component_updated_exactly_on_delivery healthy_cluster
                  (sample_options true false) sample_built 0 background
                  no_files early_delivery delivered_early Hb He)).
Defined.

(** ** The watcher goroutine and the watch context *)

Lemma done_cancel e c : done (cancel e c) = true.
Proof. unfold done, cancel. destruct (err c) eqn:E; simpl; [rewrite E|]; reflexivity. Qed.

Lemma cancel_done e c : done c = true -> cancel e c = c.
Proof. unfold done, cancel. destruct (err c); [reflexivity|discriminate]. Qed.

Lemma err_cancel e c :
  err (cancel e c) = match err c with Some x => Some x | None => Some e end.
Proof. unfold cancel. destruct (err c) eqn:E; simpl; [rewrite E|]; reflexivity. Qed.

Lemma deadline_cancel e c : deadline (cancel e c) = deadline c.
Proof. unfold cancel. destruct (err c); reflexivity. Qed.

Lemma expired_cancel_Canceled c : expired (cancel Canceled c) = expired c.
Proof. unfold expired. rewrite err_cancel. destruct (err c); reflexivity. Qed.

Lemma may_return_cancel e c r :
  watch_may_return c r = true -> watch_may_return (cancel e c) r = true.
Proof.
  unfold watch_may_return. rewrite err_cancel.
  destruct r as [[x|m]|]; auto. destruct (err c); auto. discriminate.
Qed.

Lemma done_not_expired c :
  done c = true -> expired c = false -> err c = Some Canceled.
Proof. unfold done, expired. destruct (err c) as [[|]|]; congruence. Qed.

Ltac use_watch_pcs :=
  repeat match goal with
  | E : main ?s = _ |- _ => rewrite E in *; clear E
  | E : watcher ?s = _ |- _ => rewrite E in *; clear E
  | E : watchCtx ?s = _ |- _ => rewrite E in *; clear E
  | E : config ?s = _ |- _ => rewrite E in *; clear E
  end.

Ltac use_stage :=
  repeat match goal with
  | H : (?a <= ?b)%nat -> _ |- _ =>
      first [ let K := fresh in
              assert (K : (a <= b)%nat) by (simpl; lia); specialize (H K); clear K
            | clear H ]
  | H : ?a <> ?b -> _ |- _ =>
      first [ let K := fresh in
              assert (K : a <> b) by (first [assumption | discriminate]);
              specialize (H K); clear K
            | clear H ]
  | H : ?a = ?b -> _ |- _ =>
      first [ let K := fresh in
              assert (K : a = b) by (first [assumption | reflexivity]);
              specialize (H K); clear K
            | clear H ]
  | H : Some ?x = Some ?y |- _ => inversion H; subst; clear H
  end.

Ltac watch_finish :=
  intros; simpl in *; try lia; use_stage;
  try match goal with
  | H : option_map _ (watchCtx ?s) = Some _ |- _ =>
      destruct (watchCtx s) eqn:?; simpl in H; [|discriminate]
  | |- option_map _ (watchCtx ?s) <> None =>
      destruct (watchCtx s) eqn:?; simpl; [discriminate|]
  end;
  use_stage;
  rewrite ?done_cancel, ?expired_cancel_Canceled in *;
  try reflexivity; try discriminate; try congruence; try lia;
  try (apply may_return_cancel; eauto; fail);
  try (rewrite cancel_done by eauto; eauto; fail);
  eauto.

Lemma watch_inv_step b a s s' :
  handlers b = componentHandlers ->
  watch_inv s -> step b a s = Some s' -> watch_inv s'.
Proof.
  intros Hb I H.
  step_cases H Hb s.
  all: match goal with Ea : alive _ = true |- _ => apply alive_exited in Ea end.
  all: destruct I.
  all: constructor; unfold watch_expired, fsevent_closed in *; simpl in *;
       use_watch_pcs.
  all: try solve [watch_finish].
  all: intros.
  all: try match goal with
       | H : option_map _ (watchCtx ?s) = Some _ |- _ =>
           destruct (watchCtx s) eqn:?; simpl in H; [|discriminate]
       end.
  all: try match goal with
       | H : Some _ = Some _ |- err _ = _ => inversion H; subst; clear H
       end.
  all: try solve [rewrite err_cancel;
                  match goal with
                  | H : forall c, _ = WDone -> _ -> err c = _ |- _ =>
                      rewrite (H _ ltac:(assumption) eq_refl); reflexivity
                  end].
  - destruct r as [e0|]; simpl in *; [|discriminate].
    inversion H; subst. split; [reflexivity|].
    destruct (is_canceled e); [discriminate|reflexivity].
  - specialize (w_returned0 r c eq_refl H0).
    destruct r as [[[|]|m]|]; simpl in *; try discriminate.
    unfold done. destruct (err c); [reflexivity|discriminate].
  - apply done_not_expired; [|assumption]. apply w_closed0; auto.
Qed.

Lemma watch_inv_init t0 ctx d : watch_inv (init t0 ctx d).
Proof.
  constructor; simpl; intros; try lia; try discriminate; try congruence.
Qed.

Lemma watch_inv_reachable b t0 ctx d s :
  handlers b = componentHandlers ->
  reachable b t0 ctx d s -> watch_inv s.
Proof.
  intros Hb (acts & E).
  eapply (exec_invariant b watch_inv); [|apply watch_inv_init|exact E].
  intros a s1 s2. apply watch_inv_step. assumption.
Qed.

(** ** Deadlines *)

Lemma expired_cancel e c :
  expired (cancel e c) = true ->
  expired c = true \/ (done c = false /\ e = DeadlineExceeded).
Proof.
  unfold expired, done. rewrite err_cancel.
  destruct (err c) as [[|]|]; destruct e; auto; discriminate.
Qed.

Lemma WithTimeout_deadline parent t d :
  0 <= d ->
  exists cd,
    deadline (WithTimeout parent t d) = Some cd
    /\ cd <= t + d
    /\ (forall pd, deadline parent = Some pd -> cd <= pd)
    /\ (deadline parent = None -> cd = t + d)
    /\ err (WithTimeout parent t d) = err parent.
Proof.
  intros Hd. unfold WithTimeout.
  destruct (deadline parent) as [pd|] eqn:E.
  - destruct (Z.ltb_spec pd (t + d)); simpl; eexists; repeat split; try lia;
      try (intros pd' E'; inversion E'; subst; lia); try discriminate.
  - simpl. eexists. repeat split; try lia. discriminate.
Qed.

Ltac time_prelude :=
  intros;
  try match goal with
  | H : option_map _ (watchCtx ?s) = Some _ |- _ =>
      destruct (watchCtx s) eqn:?; simpl in H; [|discriminate]
  end;
  repeat match goal with
  | H : Some _ = Some _ |- _ => inversion H; subst; clear H
  | H : _ && _ = true |- _ => apply andb_true_iff in H; destruct H
  | H : (_ <=? _) = true |- _ => apply Z.leb_le in H
  | H : negb _ = true |- _ => apply negb_true_iff in H
  end;
  rewrite ?deadline_cancel, ?expired_cancel_Canceled in *.

Ltac by_old :=
  match goal with
  | H : forall c, _ = Some c -> expired c = true -> exists _, _ |- exists _, _ =>
      edestruct H as (? & ? & ?); [eauto | eauto |]; eexists; split; [eauto | lia]
  | H : expired _ = true -> exists _, _ |- exists _, _ =>
      edestruct H as (? & ? & ?); [eauto |]; eexists; split; [eauto | lia]
  end.

Lemma time_inv_step b a s s' :
  time_inv s -> step b a s = Some s' -> time_inv s'.
Proof.
  intros I H.
  unfold step in H.
  destruct (alive s) eqn:Ea; simpl in H; [|discriminate].
  destruct a;
    try match type of H with context [apiServerRun ?x _] =>
          destruct x; destruct (api s) eqn:?; simpl in H
        end;
    unfold step_main, step_watcher in H;
    try match type of H with context [run_handler ?m _] =>
          destruct m as [evs [[]|c]]; simpl in H
        end;
    break_step H.
  all: destruct I.
  all: constructor; simpl in *.
  all: try assumption.
  all: time_prelude.
  all: try solve [eauto].
  all: try solve [by_old].
  - apply expired_cancel in H0. destruct H0 as [H0|_].
    + apply t_watch0; auto.
    + destruct (deadline c0) as [cd|] eqn:Ec.
      * exists cd. split; [reflexivity|].
        specialize (t_bound0 c0 cd z eq_refl Ec Heqo). lia.
      * exfalso. apply (t_deadline0 c0); auto.
  - destruct (WithTimeout_deadline (rootCtx s) (now s) Minute) as (cd' & E1 & _ & E2 & _);
      [unfold Minute, Second; lia|].
    rewrite E1 in H0. inversion H0; subst. apply E2. assumption.
  - destruct (WithTimeout_deadline (rootCtx s) (now s) Minute) as (cd' & E1 & _);
      [unfold Minute, Second; lia|].
    rewrite E1. discriminate.
  - destruct (WithTimeout_deadline (rootCtx s) (now s) Minute)
      as (cd' & E1 & _ & E2 & _ & E3); [unfold Minute, Second; lia|].
    unfold expired in H0. rewrite E3 in H0.
    destruct (t_root0 H0) as (pd & Ep & Hp).
    exists cd'. split; [assumption|]. specialize (E2 pd Ep). lia.
Qed.

Lemma time_inv_init t0 ctx d : context_wf t0 ctx -> time_inv (init t0 ctx d).
Proof.
  intros Hwf. constructor; simpl; intros; try discriminate. apply Hwf. assumption.
Qed.

Lemma time_inv_reachable b t0 ctx d s :
  context_wf t0 ctx -> reachable b t0 ctx d s -> time_inv s.
Proof.
  intros Hwf (acts & E).
  eapply (exec_invariant b time_inv); [|apply time_inv_init; exact Hwf|exact E].
  intros a s1 s2. apply time_inv_step.
Qed.

(** ** The certificate load and its deadline *)








(** From the state of the witness the watcher goroutine ends the process
    with the timeout, at the deadline. *)
Example cert_load_times_out_at_deadline :
  exists s,
    exec sample_built (watcher_finishes (watcher waiting_expired)) waiting_expired = Some s
    /\ exited s = Some (ExitFatal (FatalWatch (ErrCtx DeadlineExceeded)))
    /\ now s = Minute.
Proof. eexists. split; [vm_compute; reflexivity|]. split; reflexivity. Qed.

(** The amended C4 says nothing about a caller that cancels its context
    before the deadline.  In that case the watcher goroutine closes
    [fsevent] and ends without a fatal error, and [Run] keeps retrying the
    read: after any number of rounds it is alive, still in the loop. *)
Lemma cancelled_context_keeps_retrying :
  forall n, exists s,
    exec sample_built (rounds n) spinning = Some s
    /\ alive s = true
    /\ main s = PRecvFsEvent
    /\ watcher s = WDone
    /\ files s = no_files.
Proof.
  assert (G : forall n s0,
             alive s0 = true -> main s0 = PRecvFsEvent -> watcher s0 = WDone ->
             files s0 = no_files ->
             exists s, exec sample_built (rounds n) s0 = Some s
                       /\ alive s = true /\ main s = PRecvFsEvent
                       /\ watcher s = WDone /\ files s = no_files).
  { induction n as [|n IH]; intros s0 Ha Hm Hw Hf.
    - exists s0. simpl. auto.
    - assert (Hx : exited s0 = None) by (apply alive_exited; assumption).
      simpl rounds. unfold exec; fold exec.
      unfold step at 1, step_main, fsevent_closed. rewrite Ha, Hm, Hw. simpl.
      unfold step at 1, step_main, alive. simpl. rewrite Hx, Hf. simpl.
      apply IH; unfold alive; simpl; rewrite ?Hx; auto. }
  intros n. apply G; reflexivity.
Qed.

(** ** A first read that succeeds *)


(** * Further properties of the code *)

(** ** NewOperator: failures and optional parts *)

Ltac newop_cases env opts :=
  unfold NewOperator, check, construction_ok, manager_options, watchdog_of,
    result, events;
  destruct (GetConfig_err env) eqn:?; simpl;
  [|destruct (NewManager_err env _) eqn:?; simpl;
    [|destruct (Opts.WatchdogEnabled opts) eqn:?;
      destruct (Opts.LeaderElection opts) eqn:?; simpl;
      try (destruct (Add_err env _) eqn:?; simpl);
      try (destruct (Opts.ServiceReconcilerEnabled opts) eqn:?; simpl;
           try (destruct (Init_err env) eqn:?; simpl);
           try (destruct (GetInformer_err env) eqn:?; simpl))]].

(** X1: [NewOperator] returns an operator exactly when every call it makes
    for the given options succeeds: getting the configuration, creating the
    manager, adding the watchdog (if enabled), initialising the service
    reconciler (if enabled) and getting the informer. *)
Theorem NewOperator_returns_iff_calls_succeed :
  forall env opts,
    (exists b, result (NewOperator env opts) = Ret b) <-> construction_ok env opts.
Proof.
  intros env opts. split.
  - intros (b & H). revert H. newop_cases env opts; intros H; try discriminate;
      repeat split; intros; try discriminate; try assumption; try reflexivity.
  - intros (H1 & H2 & H3 & H4 & H5).
    unfold NewOperator, check, construction_ok, manager_options, watchdog_of,
      result in *.
    rewrite H1. simpl. rewrite H2. simpl.
    destruct (Opts.WatchdogEnabled opts); simpl;
      [destruct (Opts.LeaderElection opts); simpl; rewrite (H3 eq_refl); simpl|];
      (destruct (Opts.ServiceReconcilerEnabled opts); simpl;
       [rewrite (H4 eq_refl); simpl|]);
      rewrite H5; simpl; eexists; reflexivity.
Qed.

Lemma NewOperator_returns_iff_calls_succeed_witness :
  construction_ok healthy_cluster (sample_options true false)
  /\ exists b, result (NewOperator healthy_cluster (sample_options true false)) = Ret b.
Proof.
  assert (H : construction_ok healthy_cluster (sample_options true false))
    by (repeat split; intros; reflexivity).
  split; [exact H|].
  exact (proj2 (NewOperator_returns_iff_calls_succeed healthy_cluster
                  (sample_options true false)) H).
Defined.

(** X2: a construction that fails ends with the fatal log line and the exit,
    exactly one exit, and never registers the event handlers; it never
    panics.  A construction that succeeds writes no fatal line, does not
    exit, and registering the handlers is the last thing it does, once. *)
Theorem NewOperator_exit_is_last :
  forall env opts,
    match result (NewOperator env opts) with
    | Ret b =>
        seen is_exit (events (NewOperator env opts)) = false
        /\ seen is_fatal_log (events (NewOperator env opts)) = false
        /\ occurrences is_add_handler (events (NewOperator env opts)) = 1%nat
        /\ exists pre, events (NewOperator env opts) = pre ++ [EvAddEventHandler]
    | Stop c =>
        exists f msg pre,
          c = ExitFatal f
          /\ events (NewOperator env opts)
             = pre ++ [EvLog FatalLevel msg; EvExit (ExitFatal f)]
          /\ seen is_exit pre = false
          /\ seen is_add_handler (events (NewOperator env opts)) = false
    end.
Proof.
  intros env opts.
  newop_cases env opts;
    try (repeat split; try reflexivity;
         match goal with
         | |- exists pre, ?l = pre ++ [EvAddEventHandler] =>
             exists (removelast l); reflexivity
         end);
    try (eexists; eexists;
         match goal with
         | |- exists pre, _ /\ ?l = pre ++ [_; _] /\ _ =>
             exists (removelast (removelast l))
         end; repeat split; reflexivity).
Qed.

(** X3: the watchdog is added to the manager at most once, only when it is
    enabled, and with the interval and the restart limit of the options;
    when it is disabled nothing is added; a constructed operator carries
    exactly the watchdogs that were added. *)
Theorem NewOperator_watchdog_added_iff_enabled :
  forall env opts,
    (Opts.WatchdogEnabled opts = false -> added (events (NewOperator env opts)) = [])
    /\ (forall wd, In wd (added (events (NewOperator env opts))) ->
          Opts.WatchdogEnabled opts = true /\ wd = watchdog_of opts)
    /\ (List.length (added (events (NewOperator env opts))) <= 1)%nat
    /\ (forall b, result (NewOperator env opts) = Ret b ->
          runnables b = added (events (NewOperator env opts))
          /\ runnables b =
               if Opts.WatchdogEnabled opts then [watchdog_of opts] else []).
Proof.
  intros env opts.
  newop_cases env opts; repeat split; intros; simpl in *;
    try discriminate; try contradiction; try reflexivity; try lia;
    try (match goal with H : _ \/ False |- _ => destruct H as [H|[]]; subst end;
         reflexivity);
    try (match goal with H : Ret _ = Ret _ |- _ => inversion H; subst end;
         reflexivity).
Qed.

Lemma NewOperator_watchdog_added_iff_enabled_witness :
  result (NewOperator healthy_cluster (sample_options false true))
    = Ret {| op := op sample_built;
             mgrOptions := manager_options (sample_options false true);
             runnables := [watchdog_of (sample_options false true)];
             handlers := componentHandlers |}
  /\ added (events (NewOperator healthy_cluster (sample_options false true)))
     = [watchdog_of (sample_options false true)].
Proof.
  assert (H : result (NewOperator healthy_cluster (sample_options false true))
              = Ret {| op := op sample_built;
                       mgrOptions := manager_options (sample_options false true);
                       runnables := [watchdog_of (sample_options false true)];
                       handlers := componentHandlers |}) by reflexivity.
  split; [exact H|].
  symmetry.
  exact (proj1 (proj2 (proj2 (proj2
           (NewOperator_watchdog_added_iff_enabled healthy_cluster
              (sample_options false true)))) _ H)).
Defined.

(** X4: the warning about leader election is written exactly when the
    watchdog is enabled, leader election is disabled, and the construction
    got as far as the watchdog (configuration and manager were obtained). *)
Theorem NewOperator_warns_iff_watchdog_without_election :
  forall env opts,
    In (Warn, forced_warning) (logs (events (NewOperator env opts)))
    <-> (Opts.WatchdogEnabled opts = true
         /\ Opts.LeaderElection opts = false
         /\ GetConfig_err env = None
         /\ NewManager_err env (manager_options opts) = None).
Proof.
  intros env opts. unfold forced_warning.
  newop_cases env opts; split;
    try (intros (? & ? & ? & ?); discriminate);
    try (intros _; simpl; auto; fail);
    try (intros H; simpl in H;
         repeat match goal with
                | H : _ \/ _ |- _ => destruct H as [H|H]
                | H : False |- _ => destruct H
                | H : (_, _) = (_, _) |- _ => discriminate H
                end; fail);
    try (intros _; repeat split; assumption).
Qed.

Lemma NewOperator_warns_iff_watchdog_without_election_witness :
  In (Warn, forced_warning)
     (logs (events (NewOperator healthy_cluster (sample_options false true)))).
Proof.
  exact (proj2 (NewOperator_warns_iff_watchdog_without_election healthy_cluster
                  (sample_options false true))
               (conj eq_refl (conj eq_refl (conj eq_refl eq_refl)))).
Defined.

(** X5: the leader-election flag influences nothing but the warning and the
    flag of the manager options.  If the manager is created with the same
    result for both values of the flag, the two constructions make the same
    calls in the same order, write the same other log lines, end the same
    way, and build the same operator with the same watchdogs. *)
Theorem NewOperator_leader_flag_only_warns :
  forall env opts,
    NewManager_err env (manager_options (with_leader true opts))
      = NewManager_err env (manager_options (with_leader false opts)) ->
    flat_map blank_leader (events (NewOperator env (with_leader true opts)))
      = flat_map blank_leader (events (NewOperator env (with_leader false opts)))
    /\ built_less_manager (result (NewOperator env (with_leader true opts)))
       = built_less_manager (result (NewOperator env (with_leader false opts))).
Proof.
  intros env opts E.
  unfold NewOperator, check, result, events.
  change (Opts.WatchNamespace (with_leader true opts))
    with (Opts.WatchNamespace opts).
  change (Opts.WatchNamespace (with_leader false opts))
    with (Opts.WatchNamespace opts).
  unfold manager_options in E. simpl in E.
  simpl.
  destruct (GetConfig_err env); simpl; [auto|].
  rewrite E.
  destruct (NewManager_err env
              {| ctrl.MetricsBindAddress := "0"; ctrl.LeaderElection := false;
                 ctrl.LeaderElectionID := "operator.dapr.io";
                 ctrl.Namespace := Opts.WatchNamespace opts |}); simpl; [auto|].
  destruct (Opts.WatchdogEnabled opts); simpl;
    try destruct (Add_err env _); simpl; auto;
    destruct (Opts.ServiceReconcilerEnabled opts); simpl;
    try destruct (Init_err env); simpl; auto;
    destruct (GetInformer_err env); simpl; auto.
Qed.

Lemma NewOperator_leader_flag_only_warns_witness :
  built_less_manager
    (result (NewOperator healthy_cluster (with_leader true (sample_options false true))))
  = built_less_manager
      (result (NewOperator healthy_cluster (with_leader false (sample_options false true)))).
Proof.
  exact (proj2 (NewOperator_leader_flag_only_warns healthy_cluster
                  (sample_options false true) eq_refl)).
Defined.

(** X6: the service reconciler is initialised at most once, only when it is
    enabled, and with the Argo Rollouts flag of the options; a failure of
    the initialisation is fatal and no informer is then requested. *)
Theorem NewOperator_reconciler_iff_enabled :
  forall env opts,
    (Opts.ServiceReconcilerEnabled opts = false ->
       reconcilers (events (NewOperator env opts)) = [])
    /\ (forall argo, In argo (reconcilers (events (NewOperator env opts))) ->
          Opts.ServiceReconcilerEnabled opts = true
          /\ argo = Opts.ArgoRolloutServiceReconcilerEnabled opts)
    /\ (List.length (reconcilers (events (NewOperator env opts))) <= 1)%nat
    /\ (forall e, reconcilers (events (NewOperator env opts)) <> [] ->
          Init_err env = Some e ->
          result (NewOperator env opts) = Stop (ExitFatal (FatalHandlerInit e))
          /\ ~ In EvGetInformer (events (NewOperator env opts))).
Proof.
  intros env opts.
  newop_cases env opts; repeat split; intros; simpl in *;
    try discriminate; try contradiction; try reflexivity; try lia;
    try congruence;
    try (match goal with H : _ \/ False |- _ => destruct H as [H|[]]; subst end;
         reflexivity);
    try (intros H'; repeat (destruct H' as [H'|H']; try discriminate H');
         contradiction).
Qed.

Lemma NewOperator_reconciler_iff_enabled_witness :
  reconcilers (events (NewOperator no_reconciler_cluster reconciling_options)) <> []
  /\ result (NewOperator no_reconciler_cluster reconciling_options)
     = Stop (ExitFatal (FatalHandlerInit (ErrOther "no such kind"))).
Proof.
  assert (H : reconcilers (events (NewOperator no_reconciler_cluster
                                     reconciling_options)) <> [])
    by (vm_compute; discriminate).
  split; [exact H|].
  exact (proj1 (proj2 (proj2 (proj2
           (NewOperator_reconciler_iff_enabled no_reconciler_cluster
              reconciling_options))) _ H eq_refl)).
Defined.

(** ** Run: how often and in which order steps are taken *)

Lemma occurrences_app p tr evs :
  occurrences p (tr ++ evs) = (occurrences p tr + occurrences p evs)%nat.
Proof.
  induction tr as [|e tr IH]; simpl; [reflexivity|]. rewrite IH. lia.
Qed.

Lemma shutdown_log_watch path :
  String.eqb ("Starting watch for certs on filesystem: " ++ path)%string
             "Dapr Operator is shutting down" = false.
Proof. reflexivity. Qed.

Lemma shutdown_log_not_found txt :
  String.eqb ("TLS certificate not found; waiting for disk changes. err=" ++ txt)%string
             "Dapr Operator is shutting down" = false.
Proof. reflexivity. Qed.

Lemma run_inv_step b a s s' :
  handlers b = componentHandlers ->
  run_inv b s -> step b a s = Some s' -> run_inv b s'.
Proof.
  intros Hb I H.
  step_cases H Hb s.
  all: match goal with Ea : alive _ = true |- _ =>
         pose proof (alive_exited _ Ea) end.
  all: destruct I.
  all: constructor.
  all: unfold reached, exit_is, fsevent_closed, alive in *; simpl in *.
  all: repeat match goal with
       | E : main ?s = _ |- _ => rewrite E in *; clear E
       | E : api ?s = _ |- _ => rewrite E in *; clear E
       | E : mgrT ?s = _ |- _ => rewrite E in *; clear E
       | E : healthzT ?s = _ |- _ => rewrite E in *; clear E
       | E : watcher ?s = _ |- _ => rewrite E in *; clear E
       | E : exited ?s = _ |- _ => rewrite E in *; clear E
       | E : config ?s = _ |- _ => rewrite E in *; clear E
       end.
  all: simpl in *.
  all: rewrite <- ?app_assoc; simpl.
  all: rewrite ?occurrences_app, ?seen_app, ?shutdown_log_watch,
         ?shutdown_log_not_found; simpl.
  all: try solve [lia | assumption | reflexivity | discriminate].
  all: rewrite ?orb_false_r, ?orb_true_r in *.
  all: try solve [intros; eauto].
  all: try solve [intros; simpl in *; try lia; try discriminate; eauto].
  all: try solve
       [intros;
        match goal with
        | H : In _ (_ ++ _) |- _ =>
            apply in_app_or in H; destruct H as [H|H];
            [eauto
            |simpl in H;
             repeat (destruct H as [H|H];
                     [try discriminate H; try (inversion H; subst; eauto)|]);
             try contradiction]
        end].
  all: intros.
  all: repeat match goal with
       | H : (?a <= ?b)%nat -> _ |- _ =>
           first [ let K := fresh in
                   assert (K : (a <= b)%nat) by (simpl; lia);
                   specialize (H K); clear K
                 | match goal with Hp : (a <= b)%nat |- _ => specialize (H Hp) end
                 | clear H ]
       end.
  all: repeat match goal with
       | Hp : ?P, Hi : ?P -> _ |- _ => specialize (Hi Hp)
       | H : _ \/ _ |- _ => destruct H
       | H : Some _ = Some _ |- _ => inversion H; subst; clear H
       end.
  all: repeat match goal with
       | E : mgrT ?s = _ |- _ => rewrite E in *; clear E
       | E : healthzT ?s = _ |- _ => rewrite E in *; clear E
       | E : watcher ?s = _ |- _ => rewrite E in *; clear E
       | E : api ?s = _ |- _ => rewrite E in *; clear E
       | E : watchCtx ?s = _ |- _ => rewrite E in *; clear E
       end.
  all: simpl in *.
  all: try solve [lia | discriminate | congruence | reflexivity | assumption
                 | split; discriminate | eauto].
Qed.

Lemma run_inv_init b t0 ctx d : run_inv b (init t0 ctx d).
Proof.
  constructor; simpl; intros; try reflexivity; try discriminate;
    try contradiction; try lia.
  destruct H; discriminate.
Qed.

Lemma run_inv_reachable b t0 ctx d s :
  handlers b = componentHandlers ->
  reachable b t0 ctx d s -> run_inv b s.
Proof.
  intros Hb (acts & E).
  eapply (exec_invariant b (run_inv b)); [|apply run_inv_init|exact E].
  intros a s1 s2. apply run_inv_step. assumption.
Qed.


Lemma order_inv_step b a s s' :
  handlers b = componentHandlers ->
  order_inv s -> step b a s = Some s' -> order_inv s'.
Proof.
  intros Hb I H.
  step_cases H Hb s.
  all: destruct I.
  all: constructor; unfold at_least, fsevent_closed in *; simpl in *.
  all: repeat match goal with
       | E : main ?s = _ |- _ => rewrite E in *; clear E
       | E : healthzT ?s = _ |- _ => rewrite E in *; clear E
       | E : watcher ?s = _ |- _ => rewrite E in *; clear E
       end.
  all: simpl in *; rewrite ?shutdown_log_watch, ?shutdown_log_not_found in *.
  all: try solve [finish].
  all: repeat match goal with
       | Hp : ?P, Hi : ?P -> _ |- _ => specialize (Hi Hp)
       end.
  all: finish.
Qed.

Lemma order_inv_init t0 ctx d : order_inv (init t0 ctx d).
Proof. constructor; simpl; intros; try reflexivity; discriminate. Qed.

Lemma order_inv_reachable b t0 ctx d s :
  handlers b = componentHandlers ->
  reachable b t0 ctx d s -> order_inv s.
Proof.
  intros Hb (acts & E).
  eapply (exec_invariant b order_inv); [|apply order_inv_init|exact E].
  intros a s1 s2. apply order_inv_step. assumption.
Qed.

Lemma occurrences_zero p tr : occurrences p tr = O -> seen p tr = false.
Proof.
  induction tr as [|e tr IH]; simpl; [reflexivity|].
  destruct (p e); simpl; [discriminate|]. exact IH.
Qed.

Lemma b2n_le_1 x : (Nat.b2n x <= 1)%nat.
Proof. destruct x; simpl; lia. Qed.

Lemma exec_app b acts1 : forall acts2 s s1 s2,
  exec b acts1 s = Some s1 -> exec b acts2 s1 = Some s2 ->
  exec b (acts1 ++ acts2) s = Some s2.
Proof.
  induction acts1 as [|a acts1 IH]; intros acts2 s s1 s2 E1 E2; simpl in *.
  - inversion E1; subst. assumption.
  - destruct (step b a s); [|discriminate]. eapply IH; eassumption.
Qed.

Lemma reachable_exec b t0 ctx d s acts s' :
  reachable b t0 ctx d s -> exec b acts s = Some s' -> reachable b t0 ctx d s'.
Proof.
  intros (acts0 & E0) E. exists (acts0 ++ acts). eapply exec_app; eassumption.
Qed.

(** X7: a failed load of the configuration is fatal.  Once
    [LoadConfiguration] has returned an error the process has exited with
    the configuration fatal error, and it never launched the certificate
    watch, never read the certificates, never created the health server and
    never called the API server. *)
Theorem configuration_failure_is_fatal :
  forall env opts b t0 ctx d s,
    result (NewOperator env opts) = Ret b ->
    reachable b t0 ctx d s ->
    seen is_config_failed (trace s) = true ->
    (exists e, exited s = Some (ExitFatal (FatalLoadConfiguration e)))
    /\ seen is_go_watch (trace s) = false
    /\ seen is_load (trace s) = false
    /\ seen is_new_healthz (trace s) = false
    /\ seen is_api_run (trace s) = false.
Proof.
  intros env opts b t0 ctx d s Hb Hr Hf.
  apply built_handlers in Hb.
  pose proof (run_inv_reachable b t0 ctx d s Hb Hr) as I.
  pose proof (startup_inv_reachable b t0 ctx d s Hb Hr) as IS.
  pose proof (p_config_failed b s I Hf) as Hx.
  pose proof (p_config_fatal b s I Hx) as Hm.
  pose proof (n_go_watch b s I) as N1.
  pose proof (n_new_healthz b s I) as N2.
  pose proof (n_api_run b s I) as N3.
  unfold reached in *. rewrite Hm in *. simpl in *.
  split.
  - unfold exit_is in Hx.
    destruct (exited s) as [[f|]|]; try discriminate.
    destruct f; try discriminate. eauto.
  - repeat split; try (apply occurrences_zero; assumption).
    destruct (seen is_load (trace s)) eqn:E; [|reflexivity].
    pose proof (inv_load s IS E) as Hl. rewrite Hm in Hl.
    simpl in Hl. lia.
Qed.

(** X8: the options given to [NewOperator] are the ones [Run] uses.  Every
    configuration load asks for the configuration named by [Config], the
    credentials of the loaded configuration point to [CertChainPath], and
    every call of [fswatcher.Watch] watches that path. *)
Theorem options_reach_run :
  forall env opts b t0 ctx d s,
    result (NewOperator env opts) = Ret b ->
    reachable b t0 ctx d s ->
    (forall name ok, In (EvLoadConfiguration name ok) (trace s) ->
       name = Opts.Config opts)
    /\ (forall path, In (EvWatchCall path) (trace s) ->
          path = Opts.CertChainPath opts)
    /\ (forall cfg, config s = Some cfg ->
          credentials.Path (Credentials cfg) = Opts.CertChainPath opts).
Proof.
  intros env opts b t0 ctx d s Hb Hr.
  destruct (NewOperator_handlers env opts b Hb) as (Hh & Hn & Hp & _).
  pose proof (run_inv_reachable b t0 ctx d s Hh Hr) as I. destruct I.
  rewrite <- Hn, <- Hp. repeat split; eauto.
Qed.

(** X9: [Run] takes each of its start-up steps at most once, in every
    execution: it launches the manager once, the manager is started once,
    the cache sync is awaited once, the configuration is loaded once, one
    health server is created, launched and run, [apiServer.Run] is called
    once, and the process exits at most once. *)
Theorem startup_steps_happen_once :
  forall env opts b t0 ctx d s,
    result (NewOperator env opts) = Ret b ->
    reachable b t0 ctx d s ->
    (occurrences is_go_mgr (trace s) <= 1)%nat
    /\ (occurrences is_mgr_start (trace s) <= 1)%nat
    /\ (occurrences is_sync (trace s) <= 1)%nat
    /\ (occurrences is_config (trace s) <= 1)%nat
    /\ (occurrences is_new_healthz (trace s) <= 1)%nat
    /\ (occurrences is_go_healthz (trace s) <= 1)%nat
    /\ (occurrences is_healthz_run (trace s) <= 1)%nat
    /\ (occurrences is_api_run (trace s) <= 1)%nat
    /\ (occurrences is_exit (trace s) <= 1)%nat.
Proof.
  intros env opts b t0 ctx d s Hb Hr.
  apply built_handlers in Hb.
  pose proof (run_inv_reachable b t0 ctx d s Hb Hr) as I. destruct I.
  unfold reached in *.
  repeat split;
    try (match goal with H : ?x = _ |- (?x <= 1)%nat => rewrite H end;
         apply b2n_le_1).
  - match goal with H : occurrences is_sync _ = _ |- _ => rewrite H end.
    destruct (exit_is is_cache_sync_fatal s) eqn:E.
    + match goal with H : true = true -> main s = PWaitForCacheSync |- _ =>
        rewrite (H eq_refl) end. simpl. lia.
    + destruct (2 <=? stage (main s))%nat; simpl; lia.
  - match goal with H : occurrences is_config _ = _ |- _ => rewrite H end.
    destruct (exit_is is_load_config_fatal s) eqn:E.
    + match goal with H : true = true -> main s = PPrepareConfig |- _ =>
        rewrite (H eq_refl) end. simpl. lia.
    + destruct (3 <=? stage (main s))%nat; simpl; lia.
Qed.

(** X10: the watch is established once per call of [loadCertChain] and
    shared by all retries.  However often the read is retried, the watcher
    goroutine is launched at most once and before any read,
    [fswatcher.Watch] is called at most once, [fsevent] is closed at most
    once and only after that call, a receive reports a closed channel only
    after the close, [watchCancel] runs at most once, and at most one read
    succeeds. *)
Theorem watch_is_established_once :
  forall env opts b t0 ctx d s,
    result (NewOperator env opts) = Ret b ->
    reachable b t0 ctx d s ->
    (occurrences is_go_watch (trace s) <= 1)%nat
    /\ (occurrences is_watch_call (trace s) <= 1)%nat
    /\ (occurrences is_close (trace s) <= 1)%nat
    /\ (occurrences is_watch_cancel (trace s) <= 1)%nat
    /\ (occurrences is_load_ok (trace s) <= 1)%nat
    /\ happens_before is_go_watch is_watch_call (trace s)
    /\ happens_before is_go_watch is_load (trace s)
    /\ happens_before is_watch_call is_close (trace s)
    /\ happens_before is_close is_recv_closed (trace s).
Proof.
  intros env opts b t0 ctx d s Hb Hr.
  apply built_handlers in Hb.
  pose proof (run_inv_reachable b t0 ctx d s Hb Hr) as I. destruct I.
  pose proof (order_inv_reachable b t0 ctx d s Hb Hr) as IO. destruct IO.
  unfold reached in *.
  repeat split;
    try (match goal with H : ?x = _ |- (?x <= 1)%nat => rewrite H end;
         apply b2n_le_1);
    apply ordered_precedes; assumption.
Qed.

(** X11: the retry loop reads once per wake-up.  In every state the number
    of reads is the number of receives on [fsevent], plus one once the first
    read is made; and the number of failed reads is the number of receives,
    plus one while [Run] waits on [fsevent].  So a read never follows a read
    without a receive in between. *)
Theorem one_read_per_event :
  forall env opts b t0 ctx d s,
    result (NewOperator env opts) = Ret b ->
    reachable b t0 ctx d s ->
    occurrences is_load (trace s)
      = (occurrences is_recv (trace s) + pending_read (main s))%nat
    /\ occurrences is_load_failed (trace s)
       = (occurrences is_recv (trace s) + waiting_read (main s))%nat
    /\ (occurrences is_recv (trace s) <= occurrences is_load (trace s)
        <= occurrences is_recv (trace s) + 1)%nat.
Proof.
  intros env opts b t0 ctx d s Hb Hr.
  apply built_handlers in Hb.
  pose proof (run_inv_reachable b t0 ctx d s Hb Hr) as I.
  pose proof (n_reads b s I) as N1. pose proof (n_failed_reads b s I) as N2.
  repeat split; try assumption; rewrite N1;
    destruct (main s); simpl; lia.
Qed.

(** X12: while [Run] waits on [fsevent] (line 199) no step wakes it except
    an event sent by the running watch or, once the channel is closed, its
    own receive; in both cases it goes back to reading the files.  Time
    passing, a change of the files or a cancelled context alone leave it
    waiting. *)
Theorem loop_wakes_only_on_event :
  forall env opts b a s s',
    result (NewOperator env opts) = Ret b ->
    main s = PRecvFsEvent ->
    step b a s = Some s' ->
    main s' = PRecvFsEvent
    \/ (main s' = PLoadFromDisk
        /\ ((a = FsEvent /\ watcher s = WInWatch)
            \/ (a = Main /\ fsevent_closed s = true))).
Proof.
  intros env opts b a s s' Hb Hm H.
  apply built_handlers in Hb.
  step_cases H Hb s; simpl; auto; try congruence.
Qed.

Lemma seen_occurrences p tr : seen p tr = true -> (1 <= occurrences p tr)%nat.
Proof.
  induction tr as [|e tr IH]; simpl; [discriminate|].
  destruct (p e); simpl; [lia|]. exact IH.
Qed.

Lemma wait_inv_step b t0 ctx a s s' :
  wait_inv t0 ctx s -> step b a s = Some s' -> wait_inv t0 ctx s'.
Proof.
  intros I H.
  unfold step in H.
  destruct (alive s) eqn:Ea; simpl in H; [|discriminate].
  destruct a;
    try match type of H with context [apiServerRun ?x _] =>
          destruct x; destruct (api s) eqn:?; simpl in H
        end;
    unfold step_main, step_watcher in H;
    try match type of H with context [run_handler ?m _] =>
          destruct m as [evs [[]|c]]; simpl in H
        end;
    break_step H.
  all: destruct I.
  all: constructor; simpl in *.
  all: try assumption.
  all: time_prelude.
  all: try solve [eauto | lia].
  - congruence.
  - destruct (WithTimeout_deadline (rootCtx s) (now s) Minute)
      as (cd' & E1 & _ & _ & E2 & _); [unfold Minute, Second; lia|].
    rewrite E1 in H0. inversion H0; subst.
    rewrite E2; [lia|congruence].
Qed.

Lemma wait_inv_init t0 ctx d :
  context_wf t0 ctx -> wait_inv t0 ctx (init t0 ctx d).
Proof.
  intros Hwf. constructor; simpl; intros; try discriminate; try reflexivity; try lia.
  destruct (expired ctx) eqn:E; [|reflexivity].
  destruct (Hwf E) as (pd & Hd & _). congruence.
Qed.

Lemma wait_inv_reachable b t0 ctx d s :
  context_wf t0 ctx -> reachable b t0 ctx d s -> wait_inv t0 ctx s.
Proof.
  intros Hwf (acts & E).
  eapply (exec_invariant b (wait_inv t0 ctx)); [|apply wait_inv_init; exact Hwf|exact E].
  intros a s1 s2. apply wait_inv_step.
Qed.

(** A timeout exit is taken only with the watch context expired. *)
Lemma timeout_exit_expired s x :
  watch_inv s -> exited s = Some x -> timeout_fatal x = true ->
  watch_expired s = true.
Proof.
  intros IW Hx Ht. unfold watch_expired.
  destruct x as [f|]; [|discriminate].
  destruct f as [| | | | | |e| | | |]; try discriminate.
  - destruct e as [[|]|]; try discriminate.
    destruct (w_exit_watch s IW _ Hx) as (Ew & _).
    assert (Hn : watcher s <> WNotSpawned) by congruence.
    apply (w_ctx s IW) in Hn.
    destruct (watchCtx s) as [wc|] eqn:Ec; [|congruence].
    pose proof (w_returned s IW _ wc Ew Ec) as Hm. simpl in Hm.
    unfold expired. destruct (err wc) as [[|]|]; simpl in Hm; congruence.
  - destruct (w_exit_timeout s IW Hx) as (_ & He). exact He.
Qed.

(** X13: when the caller's context has no deadline, the watch context
    cannot expire, and the process cannot exit with the certificate timeout,
    earlier than one minute after [Run] was entered. *)
Theorem certificate_wait_lasts_a_minute :
  forall env opts b t0 ctx d s,
    result (NewOperator env opts) = Ret b ->
    context_wf t0 ctx ->
    deadline ctx = None ->
    reachable b t0 ctx d s ->
    (watch_expired s = true -> t0 + Minute <= now s)
    /\ (forall x, exited s = Some x -> timeout_fatal x = true ->
          t0 + Minute <= now s).
Proof.
  intros env opts b t0 ctx d s Hb Hwf Hd Hr.
  apply built_handlers in Hb.
  pose proof (watch_inv_reachable b t0 ctx d s Hb Hr) as IW.
  pose proof (time_inv_reachable b t0 ctx d s Hwf Hr) as IT.
  pose proof (wait_inv_reachable b t0 ctx d s Hwf Hr) as ID.
  assert (G : watch_expired s = true -> t0 + Minute <= now s).
  { unfold watch_expired. intros He.
    destruct (watchCtx s) as [wc|] eqn:Ec; [|discriminate].
    destruct (t_watch s IT wc Ec He) as (cd & Ecd & Hle).
    pose proof (d_watch t0 ctx s ID wc cd Ec Ecd Hd). lia. }
  split; [exact G|].
  intros x Hx Ht. apply G. eapply timeout_exit_expired; eassumption.
Qed.

(** X14: [Run] returns only after [apiServer.Run] has returned.  While the
    API server runs [Run] has no step of its own; the shutdown line is logged
    at most once, only after [apiServer.Run] was called, and when it is
    logged [Run] has returned and the API server is done. *)
Theorem run_returns_after_api_server :
  forall env opts b t0 ctx d s,
    result (NewOperator env opts) = Ret b ->
    reachable b t0 ctx d s ->
    (main s = PInApiServerRun -> step b Main s = None)
    /\ (main s = PShuttingDown \/ main s = PReturned -> api s = ApiReturned)
    /\ (seen is_shutdown_log (trace s) = true -> main s = PReturned)
    /\ (occurrences is_shutdown_log (trace s) <= 1)%nat
    /\ happens_before is_api_run is_shutdown_log (trace s).
Proof.
  intros env opts b t0 ctx d s Hb Hr.
  apply built_handlers in Hb.
  pose proof (run_inv_reachable b t0 ctx d s Hb Hr) as I.
  pose proof (order_inv_reachable b t0 ctx d s Hb Hr) as IO.
  pose proof (n_shutdown b s I) as N.
  repeat split.
  - intros E. unfold step, step_main. rewrite E. destruct (alive s); reflexivity.
  - intros [E|E]; apply (p_api_done b s I); rewrite E; simpl; auto.
  - intros Hs. apply seen_occurrences in Hs. rewrite N in Hs.
    destruct (main s); simpl in Hs; try lia. reflexivity.
  - rewrite N. apply b2n_le_1.
  - apply ordered_precedes. apply (o_api_shutdown s IO).
Qed.

(** X15: the body of a goroutine runs only after the [go] statement that
    launches it: [mgr.Start] after line 213 and the health server after
    line 228.  The health server therefore runs only after the certificates
    were loaded, and always on port 8080. *)
Theorem goroutines_run_after_launch :
  forall env opts b t0 ctx d s,
    result (NewOperator env opts) = Ret b ->
    reachable b t0 ctx d s ->
    happens_before is_go_mgr is_mgr_start (trace s)
    /\ happens_before is_go_healthz is_healthz_run (trace s)
    /\ happens_before is_load_ok is_healthz_run (trace s)
    /\ (forall p, In (EvHealthzRun p) (trace s) -> p = 8080).
Proof.
  intros env opts b t0 ctx d s Hb Hr.
  apply built_handlers in Hb.
  pose proof (run_inv_reachable b t0 ctx d s Hb Hr) as I.
  pose proof (order_inv_reachable b t0 ctx d s Hb Hr) as IO.
  pose proof (startup_inv_reachable b t0 ctx d s Hb Hr) as IS.
  assert (H2 : happens_before is_go_healthz is_healthz_run (trace s))
    by (apply ordered_precedes; apply (o_hz_run s IO)).
  repeat split.
  - apply ordered_precedes. apply (ord_mgr_start s IS).
  - exact H2.
  - eapply happens_before_trans; [|exact H2].
    eapply happens_before_trans;
      [apply ordered_precedes; apply (ord_load_cancel s IS)|].
    apply ordered_precedes. apply (ord_cancel_gohz s IS).
  - apply (p_port b s I).
Qed.

(** X16: the only panic of the process is a nil component handed to
    [syncComponent].  In particular the watcher goroutine never finds
    [o.config] nil at line 179: [prepareConfig] has always run before it. *)
Theorem only_a_nil_component_panics :
  forall env opts b t0 ctx d s a s',
    result (NewOperator env opts) = Ret b ->
    reachable b t0 ctx d s ->
    step b a s = Some s' ->
    exited s' = Some ExitPanic ->
    exists n, a = Deliver n /\ nil_component n = true.
Proof.
  intros env opts b t0 ctx d s a s' Hb Hr H Hx.
  apply built_handlers in Hb.
  pose proof (run_inv_reachable b t0 ctx d s Hb Hr) as I.
  pose proof (watch_inv_reachable b t0 ctx d s Hb Hr) as IW.
  assert (Hcfg : watcher s = WSpawned -> config s <> None).
  { intros Ew. apply (w_config s IW).
    destruct (Nat.le_gt_cases (stage (main s)) 3) as [L|L]; [|lia].
    pose proof (p_watcher b s I L). congruence. }
  step_cases H Hb s.
  all: match goal with Ea : alive _ = true |- _ =>
         pose proof (alive_exited _ Ea) end.
  all: simpl in Hx; try congruence.
  all: try (eexists; split; [reflexivity|reflexivity]).
  exfalso. apply Hcfg; first [assumption | reflexivity].
Qed.

(** X17: while the manager runs, a sequence of notifications without nil
    components is handled completely, and [OnComponentUpdated] is called
    once for each add or update that carries a component, in the order of
    delivery; deletions and objects of other kinds are skipped.  [Run] is not
    moved by it. *)
Theorem notifications_are_forwarded_in_order :
  forall env opts b ns s,
    result (NewOperator env opts) = Ret b ->
    alive s = true ->
    mgrT s = MRunning ->
    forallb (fun n => negb (nil_component n)) ns = true ->
    exists s',
      exec b (map Deliver ns) s = Some s'
      /\ calls (trace s') = calls (trace s) ++ flat_map component_of ns
      /\ alive s' = true
      /\ main s' = main s.
Proof.
  intros env opts b ns s Hb. apply built_handlers in Hb.
  revert s. induction ns as [|n ns IH]; intros s Ha Hm Hn; simpl.
  - exists s. rewrite app_nil_r. auto.
  - simpl in Hn. apply andb_true_iff in Hn. destruct Hn as (Hn1 & Hn2).
    unfold step at 1. rewrite Ha, Hm, Hb. simpl.
    destruct n as [[[c|]|k]|o [[c|]|k]|o]; simpl in *; try discriminate;
      match goal with
      | |- exists s', exec b _ ?s1 = Some s' /\ _ =>
          destruct (IH s1) as (s' & E & Hc & Ha' & Hm');
          [exact Ha|exact Hm|exact Hn2|];
          exists s'; split; [exact E|]; split; [|split; assumption];
          rewrite Hc; simpl; rewrite ?calls_app; simpl;
          rewrite <- ?app_assoc, ?app_nil_r; reflexivity
      end.
Qed.

Lemma watch_cancelled_step b a s s' :
  run_inv b s -> watch_cancelled s -> step b a s = Some s' -> watch_cancelled s'.
Proof.
  intros I (wc & Ec & Ee) H.
  pose proof (p_ctx b s I) as Hctx.
  unfold watch_cancelled.
  unfold step in H.
  destruct (alive s) eqn:Ea; simpl in H; [|discriminate].
  destruct a;
    try match type of H with context [apiServerRun ?x _] =>
          destruct x; destruct (api s) eqn:?; simpl in H
        end;
    unfold step_main, step_watcher in H;
    try match type of H with context [run_handler ?m _] =>
          destruct m as [evs [[]|c]]; simpl in H
        end;
    break_step H; simpl in *.
  all: try match type of Ec with Some _ = Some _ => inversion Ec; subst end.
  all: try solve [eauto].
  all: try solve [rewrite ?Ec in *; simpl in *; eexists; split;
                  [reflexivity|rewrite err_cancel, Ee; reflexivity]].
  all: try solve [match goal with
                  | Hb0 : _ && negb (done _) = true |- _ =>
                      apply andb_true_iff in Hb0; destruct Hb0 as (_ & Hd);
                      unfold done in Hd; rewrite Ee in Hd; discriminate
                  end].
  all: try match goal with E : main _ = _ |- _ => rewrite E in Hctx end.
  all: simpl in Hctx; specialize (Hctx ltac:(lia)); congruence.
Qed.

(** X18: once the watch context has been cancelled (by [watchCancel()]
    after a successful load, or by the caller cancelling its context), no
    later step can exit the process with the certificate timeout. *)
Theorem cancelled_watch_never_times_out :
  forall env opts b t0 ctx d s acts s' x,
    result (NewOperator env opts) = Ret b ->
    reachable b t0 ctx d s ->
    watch_cancelled s ->
    exec b acts s = Some s' ->
    exited s' = Some x ->
    timeout_fatal x = false.
Proof.
  intros env opts b t0 ctx d s acts s' x Hb Hr Hc E Hx.
  apply built_handlers in Hb.
  assert (Q : run_inv b s' /\ watch_cancelled s').
  { eapply (exec_invariant b (fun st => run_inv b st /\ watch_cancelled st));
      [|split; [eapply run_inv_reachable; eassumption|exact Hc]|exact E].
    intros a s1 s2 (I1 & C1) Hs. split.
    - eapply run_inv_step; eassumption.
    - eapply watch_cancelled_step; eassumption. }
  destruct Q as (_ & (wc & Ec & Ee)).
  pose proof (watch_inv_reachable b t0 ctx d s'
                Hb (reachable_exec b t0 ctx d s acts s' Hr E)) as IW.
  destruct (timeout_fatal x) eqn:Et; [|reflexivity].
  pose proof (timeout_exit_expired s' x IW Hx Et) as He.
  unfold watch_expired, expired in He. rewrite Ec, Ee in He. discriminate.
Qed.

(** ** Instances of the properties above *)

Lemma configuration_failure_is_fatal_witness :
  reachable sample_built 0 background all_files config_failed
  /\ seen is_config_failed (trace config_failed) = true
  /\ seen is_api_run (trace config_failed) = false.
Proof.
  assert (Hb : result (NewOperator healthy_cluster (sample_options true false))
               = Ret sample_built) by reflexivity.
  assert (Hr : reachable sample_built 0 background all_files config_failed)
    by (exists [Main; MgrGo; CacheSync; WaitForCacheSyncReturns true;
                LoadConfigurationReturns (Some (ErrOther "not found"))];
        vm_compute; reflexivity).
  assert (Hf : seen is_config_failed (trace config_failed) = true) by reflexivity.
  split; [exact Hr|]. split; [exact Hf|].
  exact (proj2 (proj2 (proj2 (proj2
           (configuration_failure_is_fatal healthy_cluster
              (sample_options true false) sample_built 0 background all_files
              config_failed Hb Hr Hf))))).
Defined.

Lemma options_reach_run_witness :
  reachable sample_built 0 background all_files started
  /\ credentials.Path
       (Credentials
          {| Credentials :=
               credentials.NewTLSCredentials "/var/run/dapr/credentials" |})
     = Opts.CertChainPath (sample_options true false).
Proof.
  assert (Hb : result (NewOperator healthy_cluster (sample_options true false))
               = Ret sample_built) by reflexivity.
  assert (Hr : reachable sample_built 0 background all_files started)
    by (exists full_startup; vm_compute; reflexivity).
  split; [exact Hr|].
  exact (proj2 (proj2 (options_reach_run healthy_cluster
                  (sample_options true false) sample_built 0 background
                  all_files started Hb Hr)) _ eq_refl).
Defined.

Lemma startup_steps_happen_once_witness :
  reachable sample_built 0 background all_files started
  /\ (occurrences is_go_mgr (trace started) <= 1)%nat.
Proof.
  assert (Hb : result (NewOperator healthy_cluster (sample_options true false))
               = Ret sample_built) by reflexivity.
  assert (Hr : reachable sample_built 0 background all_files started)
    by (exists full_startup; vm_compute; reflexivity).
  split; [exact Hr|].
  exact (proj1 (startup_steps_happen_once healthy_cluster
                  (sample_options true false) sample_built 0 background
                  all_files started Hb Hr)).
Defined.

Lemma watch_is_established_once_witness :
  reachable sample_built 0 background no_files waiting_with_files
  /\ (occurrences is_go_watch (trace waiting_with_files) <= 1)%nat.
Proof.
  assert (Hb : result (NewOperator healthy_cluster (sample_options true false))
               = Ret sample_built) by reflexivity.
  assert (Hr : reachable sample_built 0 background no_files waiting_with_files)
    by (exists files_arrive; vm_compute; reflexivity).
  split; [exact Hr|].
  exact (proj1 (watch_is_established_once healthy_cluster
                  (sample_options true false) sample_built 0 background
                  no_files waiting_with_files Hb Hr)).
Defined.

Lemma one_read_per_event_witness :
  reachable sample_built 0 background no_files waiting_with_files
  /\ occurrences is_load (trace waiting_with_files)
     = (occurrences is_recv (trace waiting_with_files)
        + pending_read (main waiting_with_files))%nat.
Proof.
  assert (Hb : result (NewOperator healthy_cluster (sample_options true false))
               = Ret sample_built) by reflexivity.
  assert (Hr : reachable sample_built 0 background no_files waiting_with_files)
    by (exists files_arrive; vm_compute; reflexivity).
  split; [exact Hr|].
  exact (proj1 (one_read_per_event healthy_cluster
                  (sample_options true false) sample_built 0 background
                  no_files waiting_with_files Hb Hr)).
Defined.

Lemma loop_wakes_only_on_event_witness :
  main waiting = PRecvFsEvent
  /\ step sample_built (DiskSet all_files) waiting = Some waiting_with_files
  /\ (main waiting_with_files = PRecvFsEvent
      \/ (main waiting_with_files = PLoadFromDisk
          /\ ((DiskSet all_files = FsEvent /\ watcher waiting = WInWatch)
              \/ (DiskSet all_files = Main /\ fsevent_closed waiting = true)))).
Proof.
  assert (Hb : result (NewOperator healthy_cluster (sample_options true false))
               = Ret sample_built) by reflexivity.
  assert (Hm : main waiting = PRecvFsEvent) by reflexivity.
  assert (Hs : step sample_built (DiskSet all_files) waiting = Some waiting_with_files)
    by (vm_compute; reflexivity).
  split; [exact Hm|]. split; [exact Hs|].
  exact (loop_wakes_only_on_event healthy_cluster (sample_options true false)
           sample_built (DiskSet all_files) waiting waiting_with_files Hb Hm Hs).
Defined.

Lemma certificate_wait_lasts_a_minute_witness :
  context_wf 0 background
  /\ deadline background = None
  /\ reachable sample_built 0 background no_files waiting_expired
  /\ watch_expired waiting_expired = true
  /\ 0 + Minute <= now waiting_expired.
Proof.
  assert (Hb : result (NewOperator healthy_cluster (sample_options true false))
               = Ret sample_built) by reflexivity.
  assert (Hwf : context_wf 0 background) by (intros H; discriminate H).
  assert (Hd : deadline background = None) by reflexivity.
  assert (Hr : reachable sample_built 0 background no_files waiting_expired)
    by (exists deadline_passes; vm_compute; reflexivity).
  assert (He : watch_expired waiting_expired = true) by reflexivity.
  split; [exact Hwf|]. split; [exact Hd|]. split; [exact Hr|].
  split; [exact He|].
  exact (proj1 (certificate_wait_lasts_a_minute healthy_cluster
                  (sample_options true false) sample_built 0 background
                  no_files waiting_expired Hb Hwf Hd Hr) He).
Defined.

Lemma run_returns_after_api_server_witness :
  reachable sample_built 0 background all_files shut_down
  /\ main shut_down = PReturned
  /\ api shut_down = ApiReturned.
Proof.
  assert (Hb : result (NewOperator healthy_cluster (sample_options true false))
               = Ret sample_built) by reflexivity.
  assert (Hr : reachable sample_built 0 background all_files shut_down)
    by (exists (full_startup ++ [Api ApiRunReturns; Main]);
        vm_compute; reflexivity).
  assert (Hm : main shut_down = PReturned) by reflexivity.
  split; [exact Hr|]. split; [exact Hm|].
  exact (proj1 (proj2 (run_returns_after_api_server healthy_cluster
                  (sample_options true false) sample_built 0 background
                  all_files shut_down Hb Hr)) (or_intror Hm)).
Defined.

Lemma goroutines_run_after_launch_witness :
  reachable sample_built 0 background all_files started
  /\ happens_before is_load_ok is_healthz_run (trace started).
Proof.
  assert (Hb : result (NewOperator healthy_cluster (sample_options true false))
               = Ret sample_built) by reflexivity.
  assert (Hr : reachable sample_built 0 background all_files started)
    by (exists full_startup; vm_compute; reflexivity).
  split; [exact Hr|].
  exact (proj1 (proj2 (proj2 (goroutines_run_after_launch healthy_cluster
                  (sample_options true false) sample_built 0 background
                  all_files started Hb Hr)))).
Defined.

Lemma only_a_nil_component_panics_witness :
  reachable sample_built 0 background no_files manager_running
  /\ step sample_built (Deliver (OnAdd (AnyComponent None))) manager_running
     = Some panicked
  /\ exited panicked = Some ExitPanic
  /\ exists n, Deliver (OnAdd (AnyComponent None)) = Deliver n
               /\ nil_component n = true.
Proof.
  assert (Hb : result (NewOperator healthy_cluster (sample_options true false))
               = Ret sample_built) by reflexivity.
  assert (Hr : reachable sample_built 0 background no_files manager_running)
    by (exists [Main; MgrGo]; vm_compute; reflexivity).
  assert (Hs : step sample_built (Deliver (OnAdd (AnyComponent None))) manager_running
               = Some panicked) by (vm_compute; reflexivity).
  assert (Hx : exited panicked = Some ExitPanic) by reflexivity.
  split; [exact Hr|]. split; [exact Hs|]. split; [exact Hx|].
  exact (only_a_nil_component_panics healthy_cluster (sample_options true false)
           sample_built 0 background no_files manager_running _ panicked
           Hb Hr Hs Hx).
Defined.

Lemma notifications_are_forwarded_in_order_witness :
  alive manager_running = true
  /\ mgrT manager_running = MRunning
  /\ exists s',
       exec sample_built (map Deliver sample_notifications) manager_running = Some s'
       /\ calls (trace s')
          = calls (trace manager_running) ++ [a_component; another_component].
Proof.
  assert (Hb : result (NewOperator healthy_cluster (sample_options true false))
               = Ret sample_built) by reflexivity.
  assert (Ha : alive manager_running = true) by reflexivity.
  assert (Hm : mgrT manager_running = MRunning) by reflexivity.
  assert (Hn : forallb (fun n => negb (nil_component n)) sample_notifications = true)
    by reflexivity.
  split; [exact Ha|]. split; [exact Hm|].
  destruct (notifications_are_forwarded_in_order healthy_cluster
              (sample_options true false) sample_built sample_notifications
              manager_running Hb Ha Hm Hn) as (s' & E & Hc & _).
  exists s'. split; [exact E|exact Hc].
Defined.

Lemma cancelled_watch_never_times_out_witness :
  reachable sample_built 0 background no_files spinning
  /\ watch_cancelled spinning
  /\ exec sample_built manager_stops spinning = Some stopped_after_cancel
  /\ exited stopped_after_cancel
     = Some (ExitFatal (FatalMgrStart (ErrOther "stopped")))
  /\ timeout_fatal (ExitFatal (FatalMgrStart (ErrOther "stopped"))) = false.
Proof.
  assert (Hb : result (NewOperator healthy_cluster (sample_options true false))
               = Ret sample_built) by reflexivity.
  assert (Hr : reachable sample_built 0 background no_files spinning)
    by (exists cancelled_while_waiting; vm_compute; reflexivity).
  assert (Hc : watch_cancelled spinning)
    by (eexists; split; [vm_compute; reflexivity|reflexivity]).
  assert (He : exec sample_built manager_stops spinning = Some stopped_after_cancel)
    by (vm_compute; reflexivity).
  assert (Hx : exited stopped_after_cancel
               = Some (ExitFatal (FatalMgrStart (ErrOther "stopped"))))
    by reflexivity.
  split; [exact Hr|]. split; [exact Hc|]. split; [exact He|].
  split; [exact Hx|].
  exact (cancelled_watch_never_times_out healthy_cluster (sample_options true false)
           sample_built 0 background no_files spinning manager_stops
           stopped_after_cancel _ Hb Hr Hc He Hx).
Defined.

(** * The first read of loadCertChain, under every interleaving *)








(** The exception at work: the files are in place, but [fswatcher.Watch]
    fails before [Run] has made its first read, and the process exits
    without a read. *)
Example watch_error_before_first_read :
  exec sample_built watch_fails_first (at_loadCertChain all_files)
    = Some watch_failed_first
  /\ LoadFromDisk (files (at_loadCertChain all_files)) = inl sample_chain
  /\ exited watch_failed_first
     = Some (ExitFatal (FatalWatch (ErrOther "no such directory")))
  /\ main watch_failed_first = PLoadFromDisk
  /\ seen is_load (trace watch_failed_first) = false.
Proof.
  split; [vm_compute; reflexivity|]. repeat split.
Qed.
